(** * Atlas memory worker and OpenClaw plugin: a shallow embedding

  The development follows [worker/src/index.ts] (the HTTP worker:
  [generateId], [chunkText] and the handlers of [/query], [/index],
  [/capture] and [/index-file]) and [plugin/index.ts] ([detectCategory],
  [shouldCapture] with its triggers, the client and the two hooks).

  Conventions of the embedding.
  - A JavaScript string is a [string]: one [ascii] per UTF-16 code unit,
    so the texts covered are those whose code units are below 256.
  - A JavaScript number is a rational [Q] where it is a score or a
    request parameter (finite doubles embed in [Q], and [>=] and the
    falsy test agree with it), and a [Z] where the code forces it to a
    32-bit integer.
  - The Vectorize index is a [gmap] from ids to vectors; the embedding
    model, the clock, the nearest-neighbour search and the R2 buckets are
    fields of an environment [Env].  Every call to a binding is logged in
    the world's trace.  Failures of the bindings (the [catch] branch that
    answers 500) are outside the model. *)

From Stdlib Require Import ZArith QArith String Ascii List Lia Bool.
From Stdlib Require HexadecimalString HexadecimalZ.
From stdpp Require Import gmap strings list sorting.

(** ** JavaScript strings and numbers *)

Module JS.

Definition code (c : ascii) : N := N_of_ascii c.

(** [s.length] *)
Definition len (s : string) : nat := String.length s.

(** A string is truthy when it is not empty. *)
Definition truthy (s : string) : bool :=
  match s with
  | EmptyString => false
  | String _ _ => true
  end.

(** [o || d] on an optional string: [undefined] and [''] are falsy. *)
Definition or_str (o : option string) (d : string) : string :=
  match o with
  | Some s => if truthy s then s else d
  | None => d
  end.

(** [o || d] on an optional number: [undefined] and [0] are falsy. *)
Definition or_num (o : option Q) (d : Q) : Q :=
  match o with
  | Some q => if Qeq_bool q 0 then d else q
  | None => d
  end.

(** [o ?? d]: only [undefined] and [null] give the default. *)
Definition nullish {A} (o : option A) (d : A) : A :=
  match o with
  | Some a => a
  | None => d
  end.

(** [toLowerCase] on code units below 256: [A-Z] and the capital
    letters U+00C0..U+00DE (U+00D7, the multiplication sign, apart). *)
Definition lower_char (c : ascii) : ascii :=
  let n := code c in
  if ((65 <=? n) && (n <=? 90))%N then ascii_of_N (n + 32)
  else if ((192 <=? n) && (n <=? 222) && negb (n =? 215))%N
       then ascii_of_N (n + 32)
  else c.

Fixpoint toLowerCase (s : string) : string :=
  match s with
  | EmptyString => EmptyString
  | String c s' => String (lower_char c) (toLowerCase s')
  end.

(** The [Canonicalize] of a case-insensitive regular expression (no [u]
    flag) upper-cases a code unit; it leaves the unit alone when the
    upper-case form is not a single unit of the same range (U+00B5,
    U+00DF and U+00FF here). *)
Definition canonicalize (c : ascii) : ascii :=
  let n := code c in
  if ((97 <=? n) && (n <=? 122))%N then ascii_of_N (n - 32)
  else if ((224 <=? n) && (n <=? 254) && negb (n =? 247))%N
       then ascii_of_N (n - 32)
  else c.

(** Equality of two code units, exact or up to case. *)
Definition char_eq (ignoreCase : bool) (a b : ascii) : bool :=
  if ignoreCase then Ascii.eqb (canonicalize a) (canonicalize b)
  else Ascii.eqb a b.

(** [p] occurs at the start of [s]. *)
Fixpoint starts (ignoreCase : bool) (s p : string) : bool :=
  match p with
  | EmptyString => true
  | String b p' =>
      match s with
      | EmptyString => false
      | String a s' => char_eq ignoreCase a b && starts ignoreCase s' p'
      end
  end.

(** [p] occurs somewhere in [s]. *)
Fixpoint occurs (ignoreCase : bool) (s p : string) : bool :=
  starts ignoreCase s p
  || match s with
     | EmptyString => false
     | String _ s' => occurs ignoreCase s' p
     end.

(** [s.includes(p)] *)
Definition includes (s p : string) : bool := occurs false s p.

(** The regular expressions of the classifiers are alternations of
    literal words with the [i] flag: [/w1|w2|...|wn/i]. *)
Record RegExp := { alternatives : list string; ignoreCase : bool }.

(** [r.test(s)] *)
Definition test (r : RegExp) (s : string) : bool :=
  existsb (occurs (ignoreCase r) s) (alternatives r).

(** White space and line terminators below 256, as [trim] sees them:
    TAB, LF, VT, FF, CR, SPACE and NBSP. *)
Definition is_space (c : ascii) : bool :=
  let n := code c in
  (((9 <=? n) && (n <=? 13)) || (n =? 32) || (n =? 160))%N.

Fixpoint trimStart (s : string) : string :=
  match s with
  | EmptyString => EmptyString
  | String c s' => if is_space c then trimStart s' else s
  end.

Fixpoint trimEnd (s : string) : string :=
  match s with
  | EmptyString => EmptyString
  | String c s' =>
      match trimEnd s' with
      | EmptyString => if is_space c then EmptyString else String c EmptyString
      | t => String c t
      end
  end.

(** [s.trim()] *)
Definition trim (s : string) : string := trimEnd (trimStart s).

(** [s.slice(0, n)] *)
Definition slice0 (n : nat) (s : string) : string := substring 0 n s.

Definition is_nl (c : ascii) : bool := (code c =? 10)%N.

Definition starts_nl (s : string) : bool :=
  match s with
  | String c _ => is_nl c
  | EmptyString => false
  end.

(** [s.split(/\n\n+/)]: a separator is a maximal run of two or more line
    feeds.  [in_sep] says that the scan is inside such a run, [cur] is
    the piece read since the last separator. *)
Fixpoint split_go (in_sep : bool) (cur : string) (s : string) : list string :=
  match s with
  | EmptyString => [cur]
  | String c s' =>
      if is_nl c then
        if in_sep then split_go true cur s'
        else if starts_nl s' then cur :: split_go true EmptyString s'
        else split_go false (cur +:+ String c EmptyString) s'
      else split_go false (cur +:+ String c EmptyString) s'
  end.

Definition split_paragraphs (s : string) : list string :=
  split_go false EmptyString s.

(** [ToInt32]: wrap an integer into [-2^31, 2^31). *)
Definition toInt32 (z : Z) : Z := ((z + 2 ^ 31) mod 2 ^ 32 - 2 ^ 31)%Z.

(** [h << n] on a 32-bit integer. *)
Definition shl (h n : Z) : Z := toInt32 (Z.shiftl (toInt32 h) n).

(** [z.toString(16)]: lower-case digits, a minus sign when negative. *)
Definition toString16 (z : Z) : string :=
  HexadecimalString.NilZero.string_of_int (Z.to_hex_int z).

(** [Array.from(s)]: the code units of [s], one by one. *)
Fixpoint chars (s : string) : list ascii :=
  match s with
  | EmptyString => []
  | String c s' => c :: chars s'
  end.

(** A string of [n] copies of [c]. *)
Fixpoint repeat_char (c : ascii) (n : nat) : string :=
  match n with
  | O => EmptyString
  | S n' => String c (repeat_char c n')
  end.

End JS.


(** ** The plugin: category detection ([plugin/index.ts]) *)

Module Plugin.

Inductive MemoryType :=
| decision | correction | learning | preference | context | user_profile.

(** The name a [MemoryType] has on the wire. *)
Definition type_name (t : MemoryType) : string :=
  match t with
  | decision => "decision"
  | correction => "correction"
  | learning => "learning"
  | preference => "preference"
  | context => "context"
  | user_profile => "user_profile"
  end.

Definition re_i (words : list string) : JS.RegExp :=
  {| JS.alternatives := words; JS.ignoreCase := true |}.

(** The four regular expressions of [detectCategory]. *)
Definition correction_re : JS.RegExp :=
  re_i ["actually"; "no,"; "that's wrong"; "correction"].
Definition preference_re : JS.RegExp :=
  re_i ["prefer"; "like"; "love"; "hate"; "want"].
Definition decision_re : JS.RegExp :=
  re_i ["decided"; "decision"; "will use"].
Definition learning_re : JS.RegExp :=
  re_i ["learned"; "realized"; "discovered"].

Definition detectCategory (text : string) : MemoryType :=
  let lower := JS.toLowerCase text in
  if JS.test correction_re lower then correction
  else if JS.test preference_re lower then preference
  else if JS.test decision_re lower then decision
  else if JS.test learning_re lower then learning
  else context.

End Plugin.

(** ** The worker ([worker/src/index.ts]) *)

Module Worker.

(** *** Data *)

(** [MemoryMetadata].  The interface declares [type] as a union of six
    string literals; at run time the field holds a string. *)
Record MemoryMetadata := {
  agent : string;
  type : string;
  source_file : string;
  timestamp : string;
  chunk_index : Z;
  raw_text : string
}.

(** The six literals of [MemoryMetadata['type']]. *)
Definition memory_types : list string :=
  ["decision"; "correction"; "learning"; "preference"; "context";
   "user_profile"].

Definition is_memory_type (s : string) : bool :=
  existsb (String.eqb s) memory_types.

Record VectorizeVector := {
  id : string;
  values : list Q;
  metadata : MemoryMetadata
}.

(** A match of [VECTORIZE.query]. *)
Record VectorizeMatch := {
  match_id : string;
  score : Q;
  match_values : list Q;
  match_metadata : option MemoryMetadata
}.

(** An entry of [matches] in the answer of [/query]. *)
Record QueryMatch := {
  out_id : string;
  out_score : Q;
  out_metadata : option MemoryMetadata
}.

(** The metadata filter given to the index: [{agent: {$eq}, type: {$eq}}]. *)
Record Filter := {
  filter_agent : option string;
  filter_type : option string
}.

Module QueryRequest.
Record t := {
  query : string;
  agent : option string;
  type : option string;
  topK : option Q;
  minScore : option Q
}.
End QueryRequest.

Module IndexRequest.
Record t := {
  agent : string;
  text : string;
  type : option string;
  source_file : option string;
  chunk_index : option Z
}.
End IndexRequest.

(** [turn_type] is not read by the handler and is left out. *)
Module CaptureRequest.
Record t := {
  agent : string;
  content : string;
  classification : option string
}.
End CaptureRequest.

Module IndexFileRequest.
Record t := {
  agent : string;
  file : string
}.
End IndexFileRequest.

(** A request as [fetch] tells it apart by method and path, with its
    JSON body read: [Options] is the method [OPTIONS] on any path; the
    four [Post] requests are [POST] on [/query], [/index], [/capture] and
    [/index-file]; [GetStats] is [GET /stats]; [Health] is the path
    [/health] or [/] under any method but [OPTIONS]; [OtherRequest] is
    every other method and path. *)
Inductive Request :=
| PostQuery (body : QueryRequest.t)
| PostIndex (body : IndexRequest.t)
| PostCapture (body : CaptureRequest.t)
| PostIndexFile (body : IndexFileRequest.t)
| OtherRequest
| Options
| GetStats
| Health.

Inductive Bucket := R2_DEV | R2_FLO.

(** The JSON bodies the worker answers with.  The field [result] of the
    answer of [/index], which repeats what the index returned, is left
    out, and so is the field [model] of the answer of [/stats], the name of
    the embedding model.  [NoBody] is the [null] body of the answer to
    [OPTIONS]. *)
Inductive Body :=
| ErrorBody (error : string)
| QueryBody (query : string) (count : nat) (matches : list QueryMatch)
| IndexBody (indexed : nat) (ids : list string)
| NotCaptured (reason : string)
| Captured (type : string) (id : string)
| IndexFileBody (file : string) (chunks indexed : nat)
| NoBody
| StatsBody (index : string) (dimensions : nat) (metric state : string)
| HealthBody (state service timestamp : string).

Record Response := { status : nat; body : Body }.

Definition json (b : Body) : Response := {| status := 200; body := b |}.
Definition json_status (b : Body) (st : nat) : Response :=
  {| status := st; body := b |}.

(** *** Bindings and effects *)

(** The calls the worker makes to its bindings. *)
Inductive Call :=
| AiRun (text : string)
| VectorizeQuery (vector : list Q) (topK : Q) (filter : option Filter)
| VectorizeUpsert (vectors : list VectorizeVector)
| R2Get (bucket : Bucket) (key : string).

(** What lies outside the worker: the embedding model, the clock, the
    nearest-neighbour search of the index and the content of the buckets. *)
Record Env := {
  EMBEDDING_MODEL : string -> list Q;
  clock : nat -> string;
  nearest : gmap string VectorizeVector -> list Q -> Q -> option Filter
            -> list VectorizeMatch;
  R2 : Bucket -> string -> option string
}.

(** The state a request runs in: the index, the calls made so far and the
    number of clock readings. *)
Record World := {
  store : gmap string VectorizeVector;
  trace : list Call;
  ticks : nat
}.

Definition M (A : Type) : Type := World -> A * World.

Definition ret {A} (a : A) : M A := fun w => (a, w).

Definition bind {A B} (c : M A) (k : A -> M B) : M B :=
  fun w => let '(a, w') := c w in k a w'.

Notation "x <- c ;; k" := (bind c (fun x => k))
  (at level 100, c at next level, right associativity).
Notation "c ;;; k" := (bind c (fun _ => k))
  (at level 100, right associativity).

Definition log (c : Call) : M unit :=
  fun w => (tt, {| store := store w; trace := trace w ++ [c]; ticks := ticks w |}).

(** [env.AI.run(env.EMBEDDING_MODEL, {text: [text]})], then [.data[0]]. *)
Definition ai_run (env : Env) (text : string) : M (list Q) :=
  log (AiRun text) ;;; ret (EMBEDDING_MODEL env text).

(** [new Date().toISOString()] *)
Definition now (env : Env) : M string :=
  fun w => (clock env (ticks w),
            {| store := store w; trace := trace w; ticks := S (ticks w) |}).

(** The index overwrites under an id it already holds. *)
Definition upsert_store (s : gmap string VectorizeVector)
    (vectors : list VectorizeVector) : gmap string VectorizeVector :=
  fold_left (fun s v => <[id v := v]> s) vectors s.

(** [env.VECTORIZE.upsert(vectors)] *)
Definition vectorize_upsert (vectors : list VectorizeVector) : M unit :=
  fun w => (tt, {| store := upsert_store (store w) vectors;
                   trace := trace w ++ [VectorizeUpsert vectors];
                   ticks := ticks w |}).

(** [env.VECTORIZE.query(vector, {topK, filter, returnMetadata: 'all'})] *)
Definition vectorize_query (env : Env) (vector : list Q) (topK : Q)
    (filter : option Filter) : M (list VectorizeMatch) :=
  fun w => (nearest env (store w) vector topK filter,
            {| store := store w;
               trace := trace w ++ [VectorizeQuery vector topK filter];
               ticks := ticks w |}).

(** [bucket.get(key)], then [.text()] *)
Definition r2_get (env : Env) (bucket : Bucket) (key : string)
  : M (option string) :=
  log (R2Get bucket key) ;;; ret (R2 env bucket key).

(** *** Identity and chunking *)

(** [generateId]: a 32-bit rolling hash of the text, [h * 31 + c] written
    with a shift, printed in base 16 behind the agent and the source. *)
Definition hash_step (h : Z) (c : ascii) : Z :=
  JS.toInt32 (JS.shl h 5 - h + Z.of_N (JS.code c)).

Definition hash (text : string) : Z :=
  fold_left hash_step (JS.chars text) 0%Z.

Definition generateId (agent source text : string) : string :=
  agent +:+ ":" +:+ source +:+ ":" +:+ JS.toString16 (hash text).

Definition paragraph_break : string := String "010" (String "010" "").

(** [chunkText]: the state of the loop is the list of closed chunks and
    the chunk being filled. *)
Definition chunk_step (maxChunkSize : nat) (st : list string * string)
    (para : string) : list string * string :=
  let '(chunks, currentChunk) := st in
  if (maxChunkSize <? JS.len currentChunk + JS.len para)%nat
     && JS.truthy currentChunk
  then (chunks ++ [JS.trim currentChunk], para)
  else (chunks,
        currentChunk
        +:+ (if JS.truthy currentChunk then paragraph_break else "")
        +:+ para).

Definition chunkText (text : string) (maxChunkSize : nat) : list string :=
  let '(chunks, currentChunk) :=
    fold_left (chunk_step maxChunkSize) (JS.split_paragraphs text) ([], "") in
  if JS.truthy (JS.trim currentChunk)
  then chunks ++ [JS.trim currentChunk]
  else chunks.

(** The default of [maxChunkSize]. *)
Definition defaultChunkSize : nat := 500.

(** *** The handlers of [fetch] *)

Definition bad_request (msg : string) : Response :=
  json_status (ErrorBody msg) 400.

(** [POST /query]: the [topK] given to the index. *)
Definition query_topK (body : QueryRequest.t) : Q :=
  JS.or_num (QueryRequest.topK body) 5.

(** [POST /query]: the threshold of the filter on scores. *)
Definition query_minScore (body : QueryRequest.t) : Q :=
  JS.or_num (QueryRequest.minScore body) 0.7.

Definition query_filter (body : QueryRequest.t) : option Filter :=
  let by_agent :=
    match QueryRequest.agent body with
    | Some a => if JS.truthy a then Some a else None
    | None => None
    end in
  let by_type :=
    match QueryRequest.type body with
    | Some t => if JS.truthy t then Some t else None
    | None => None
    end in
  match by_agent, by_type with
  | None, None => None
  | _, _ => Some {| filter_agent := by_agent; filter_type := by_type |}
  end.

(** [m.score >= minScore] *)
Definition score_ok (minScore : Q) (m : VectorizeMatch) : bool :=
  Qle_bool minScore (score m).

Definition to_query_match (m : VectorizeMatch) : QueryMatch :=
  {| out_id := match_id m; out_score := score m;
     out_metadata := match_metadata m |}.

Definition handle_query (env : Env) (body : QueryRequest.t) : M Response :=
  if negb (JS.truthy (QueryRequest.query body))
  then ret (bad_request "query is required")
  else
    vector <- ai_run env (QueryRequest.query body) ;;
    results <- vectorize_query env vector (query_topK body) (query_filter body) ;;
    let minScore := query_minScore body in
    let filtered := List.filter (score_ok minScore) results in
    ret (json (QueryBody (QueryRequest.query body) (length filtered)
                 (map to_query_match filtered))).

(** The loop shared by [/index] and [/index-file]: for each chunk, embed
    it, read the clock and push the vector that [build] assembles from the
    position, the chunk, the embedding and the time. *)
Fixpoint embed_chunks (env : Env)
    (build : nat -> string -> list Q -> string -> VectorizeVector)
    (i : nat) (chunks : list string) : M (list VectorizeVector) :=
  match chunks with
  | [] => ret []
  | chunk :: rest =>
      vector <- ai_run env chunk ;;
      time <- now env ;;
      vectors <- embed_chunks env build (S i) rest ;;
      ret (build i chunk vector time :: vectors)
  end.

(** The vector [/index] pushes for chunk [i]. *)
Definition index_vector (body : IndexRequest.t) (i : nat) (chunk : string)
    (vector : list Q) (time : string) : VectorizeVector :=
  let source := JS.or_str (IndexRequest.source_file body) "manual" in
  {| id := generateId (IndexRequest.agent body) source chunk;
     values := vector;
     metadata :=
       {| agent := IndexRequest.agent body;
          type := JS.or_str (IndexRequest.type body) "context";
          source_file := source;
          timestamp := time;
          chunk_index := JS.nullish (IndexRequest.chunk_index body) (Z.of_nat i);
          raw_text := chunk |} |}.

Definition handle_index (env : Env) (body : IndexRequest.t) : M Response :=
  if negb (JS.truthy (IndexRequest.agent body))
     || negb (JS.truthy (IndexRequest.text body))
  then ret (bad_request "agent and text are required")
  else
    let chunks := chunkText (IndexRequest.text body) defaultChunkSize in
    vectors <- embed_chunks env (index_vector body) 0 chunks ;;
    vectorize_upsert vectors ;;;
    ret (json (IndexBody (length vectors) (map id vectors))).

(** [/capture]: the memory type, from the caller's classification when
    there is one, from the words of the content otherwise. *)
Definition capture_type (body : CaptureRequest.t) : string :=
  let contentLower := JS.toLowerCase (CaptureRequest.content body) in
  let has := JS.includes contentLower in
  let classification := JS.nullish (CaptureRequest.classification body) "" in
  if JS.truthy classification then classification
  else if has "decided" || has "decision" then "decision"
  else if has "actually" || has "no," || has "that's wrong" then "correction"
  else if has "learned" || has "realized" then "learning"
  else if has "prefer" || has "like" || has "want" then "preference"
  else "context".

Definition capture_vector (body : CaptureRequest.t) (memoryType : string)
    (vector : list Q) (time : string) : VectorizeVector :=
  {| id := generateId (CaptureRequest.agent body) "capture"
             (CaptureRequest.content body);
     values := vector;
     metadata :=
       {| agent := CaptureRequest.agent body;
          type := memoryType;
          source_file := "auto-capture";
          timestamp := time;
          chunk_index := 0;
          raw_text := JS.slice0 1000 (CaptureRequest.content body) |} |}.

Definition handle_capture (env : Env) (body : CaptureRequest.t) : M Response :=
  if negb (JS.truthy (CaptureRequest.agent body))
     || negb (JS.truthy (CaptureRequest.content body))
  then ret (bad_request "agent and content are required")
  else
    let memoryType := capture_type body in
    if String.eqb memoryType "context"
    then ret (json (NotCaptured "Not a capture-worthy turn"))
    else
      vector <- ai_run env (CaptureRequest.content body) ;;
      time <- now env ;;
      let v := capture_vector body memoryType vector time in
      vectorize_upsert [v] ;;;
      ret (json (Captured memoryType (id v))).

(** The vector [/index-file] pushes for chunk [i]. *)
Definition file_vector (body : IndexFileRequest.t) (i : nat) (chunk : string)
    (vector : list Q) (time : string) : VectorizeVector :=
  {| id := generateId (IndexFileRequest.agent body)
             (IndexFileRequest.file body) chunk;
     values := vector;
     metadata :=
       {| agent := IndexFileRequest.agent body;
          type := "context";
          source_file := IndexFileRequest.file body;
          timestamp := time;
          chunk_index := Z.of_nat i;
          raw_text := chunk |} |}.

(** [vectors.slice(i, j)] *)
Definition slice {A} (i j : nat) (l : list A) : list A :=
  firstn (j - i) (skipn i l).

(** [for (let i = 0; i < vectors.length; i += 100)]: each round upserts
    [vectors.slice(i, i + 100)] and adds its length to [totalInserted].
    The loop runs on fuel; [upsert_batches] gives it one unit per vector. *)
Fixpoint batch_loop (fuel : nat) (vectors : list VectorizeVector)
    (i totalInserted : nat) : M nat :=
  match fuel with
  | O => ret totalInserted
  | S fuel' =>
      if (i <? length vectors)%nat then
        let batch := slice i (i + 100) vectors in
        vectorize_upsert batch ;;;
        batch_loop fuel' vectors (i + 100) (totalInserted + length batch)
      else ret totalInserted
  end.

Definition upsert_batches (vectors : list VectorizeVector) : M nat :=
  batch_loop (length vectors) vectors 0 0.

Definition bucket_of (agent : string) : option Bucket :=
  if String.eqb agent "dev" then Some R2_DEV
  else if String.eqb agent "flo" then Some R2_FLO
  else None.

Definition handle_index_file (env : Env) (body : IndexFileRequest.t)
  : M Response :=
  if negb (JS.truthy (IndexFileRequest.agent body))
     || negb (JS.truthy (IndexFileRequest.file body))
  then ret (bad_request "agent and file are required")
  else
    match bucket_of (IndexFileRequest.agent body) with
    | None =>
        ret (bad_request ("Unknown agent: " +:+ IndexFileRequest.agent body))
    | Some bucket =>
        obj <- r2_get env bucket (IndexFileRequest.file body) ;;
        match obj with
        | None =>
            ret (json_status
                   (ErrorBody ("File not found: " +:+ IndexFileRequest.file body))
                   404)
        | Some text =>
            let chunks := chunkText text defaultChunkSize in
            vectors <- embed_chunks env (file_vector body) 0 chunks ;;
            totalInserted <- upsert_batches vectors ;;
            ret (json (IndexFileBody (IndexFileRequest.file body)
                         (length vectors) totalInserted))
        end
    end.

(** [GET /stats]: the index is queried once with a vector of 768 zeros,
    [topK] 1 and no filter, and what it answers is not read.  The option
    [returnMetadata], ['none'] here, is not part of the logged call. *)
Definition handle_stats (env : Env) : M Response :=
  _ <- vectorize_query env (repeat 0%Q 768) 1%Q None ;;
  ret (json (StatsBody "agent-memories" 768 "cosine" "healthy")).

(** [/health] and [/]: the time is read once. *)
Definition handle_health (env : Env) : M Response :=
  time <- now env ;;
  ret (json (HealthBody "ok" "atlas-memory-worker" time)).

(** [fetch]: the answer to [OPTIONS] comes first, then the routes in the
    order of the source.  A body that is not JSON and a failing binding end
    in the [catch] branch, which is outside the model. *)
Definition fetch (env : Env) (request : Request) : M Response :=
  match request with
  | Options => ret {| status := 200; body := NoBody |}
  | PostQuery body => handle_query env body
  | PostIndex body => handle_index env body
  | PostCapture body => handle_capture env body
  | PostIndexFile body => handle_index_file env body
  | GetStats => handle_stats env
  | Health => handle_health env
  | OtherRequest => ret (json_status (ErrorBody "Not found") 404)
  end.

(** *** Observations on an answer and on a run *)

(** The ids an answer reports. *)
Definition response_ids (r : Response) : list string :=
  match body r with
  | IndexBody _ ids => ids
  | Captured _ i => [i]
  | _ => []
  end.

(** The batches given to [VECTORIZE.upsert], in order. *)
Fixpoint upserts (t : list Call) : list (list VectorizeVector) :=
  match t with
  | [] => []
  | VectorizeUpsert vs :: t' => vs :: upserts t'
  | _ :: t' => upserts t'
  end.

(** The calls to [VECTORIZE.query]. *)
Definition is_query (c : Call) : bool :=
  match c with
  | VectorizeQuery _ _ _ => true
  | _ => false
  end.

(** The vectors written in a run. *)
Definition written (t : list Call) : list VectorizeVector :=
  concat (upserts t).

Definition empty_world : World :=
  {| store := ∅; trace := []; ticks := 0 |}.

(** The vectors the loop [embed_chunks] assembles from position [i] on,
    when the clock has been read [t] times. *)
Fixpoint built (env : Env)
    (build : nat -> string -> list Q -> string -> VectorizeVector)
    (i t : nat) (chunks : list string) : list VectorizeVector :=
  match chunks with
  | [] => []
  | chunk :: rest =>
      build i chunk (EMBEDDING_MODEL env chunk) (clock env t)
      :: built env build (S i) (S t) rest
  end.

(** A request of [/index] that passes the check of its required fields. *)
Definition valid_index (req : IndexRequest.t) : Prop :=
  JS.truthy (IndexRequest.agent req) = true
  /\ JS.truthy (IndexRequest.text req) = true.

(** What the index answers to the request [body] in the world [w]. *)
Definition raw_matches (env : Env) (body : QueryRequest.t) (w : World)
  : list VectorizeMatch :=
  nearest env (store w) (EMBEDDING_MODEL env (QueryRequest.query body))
    (query_topK body) (query_filter body).

End Worker.

(** ** The precedence table of the specification *)

Module Spec.

Import Plugin.

(** The four kinds of language, recognised by the words of the plugin. *)
Definition correction_language (text : string) : bool :=
  JS.test correction_re (JS.toLowerCase text).
Definition preference_language (text : string) : bool :=
  JS.test preference_re (JS.toLowerCase text).
Definition decision_language (text : string) : bool :=
  JS.test decision_re (JS.toLowerCase text).
Definition learning_language (text : string) : bool :=
  JS.test learning_re (JS.toLowerCase text).

(** Follows the specification: an ordered table of (predicate, category)
    pairs, "correction-language > preference-language > decision-language
    > learning-language > else context". *)
Definition precedence : list ((string -> bool) * MemoryType) :=
  [ (correction_language, correction);
    (preference_language, preference);
    (decision_language, decision);
    (learning_language, learning) ].

(** First match wins, evaluated top to bottom. *)
Fixpoint first_match (table : list ((string -> bool) * MemoryType))
    (text : string) : MemoryType :=
  match table with
  | [] => context
  | (p, c) :: rest => if p text then c else first_match rest text
  end.

Definition classify (text : string) : MemoryType :=
  first_match precedence text.

(** Descending scores, as the index ranks its matches. *)
Definition descending (l : list Worker.VectorizeMatch) : Prop :=
  StronglySorted (fun a b => (Worker.score b <= Worker.score a)%Q) l.

End Spec.

(** ** Concrete requests and environments *)

Module Examples.

Import Worker.

(** An environment with an empty embedding, a constant clock, an index
    that finds nothing and empty buckets. *)
Definition quiet_env : Env :=
  {| EMBEDDING_MODEL := fun _ => [];
     clock := fun _ => "2026-02-18T12:00:00.000Z";
     nearest := fun _ _ _ _ => [];
     R2 := fun _ _ => None |}.

Definition a_match (i : string) (s : Q) : VectorizeMatch :=
  {| match_id := i; score := s; match_values := []; match_metadata := None |}.

(** An environment whose index answers every query with [results]. *)
Definition env_with (results : list VectorizeMatch) : Env :=
  {| EMBEDDING_MODEL := fun _ => [];
     clock := fun _ => "2026-02-18T12:00:00.000Z";
     nearest := fun _ _ _ _ => results;
     R2 := fun _ _ => None |}.

Definition a_query (topK minScore : option Q) : QueryRequest.t :=
  {| QueryRequest.query := "deployment decisions";
     QueryRequest.agent := None;
     QueryRequest.type := None;
     QueryRequest.topK := topK;
     QueryRequest.minScore := minScore |}.

Definition a_capture (content : string) (classification : option string)
  : CaptureRequest.t :=
  {| CaptureRequest.agent := "dev";
     CaptureRequest.content := content;
     CaptureRequest.classification := classification |}.

Definition an_index (text : string) : IndexRequest.t :=
  {| IndexRequest.agent := "dev";
     IndexRequest.text := text;
     IndexRequest.type := None;
     IndexRequest.source_file := None;
     IndexRequest.chunk_index := None |}.

(** A request with a negative [topK] and a [minScore] above 1. *)
Definition out_of_range_query : QueryRequest.t :=
  a_query (Some (-3)%Q) (Some 1.5%Q).

(** A request that spells out [topK = 0] and [minScore = 0]. *)
Definition zero_query : QueryRequest.t :=
  a_query (Some 0%Q) (Some 0%Q).

(** A sentence with correction language and decision language. *)
Definition correction_and_decision : string :=
  "Actually, we decided to ship on Friday".

(** A sentence with correction, preference and decision language. *)
Definition correction_and_preference : string :=
  "Actually, that's wrong: I prefer the earlier decision".

(** A sentence with decision language only. *)
Definition a_decision : string :=
  "Decided to use batching for all writes.".

(** Two paragraphs of 250 characters each. *)
Definition two_paragraphs : string :=
  JS.repeat_char "a" 250 +:+ paragraph_break +:+ JS.repeat_char "b" 250.

(** [n] paragraphs of 300 characters each. *)
Fixpoint paragraphs (n : nat) : string :=
  match n with
  | O => ""
  | S n' => JS.repeat_char "a" 300 +:+ paragraph_break +:+ paragraphs n'
  end.

End Examples.

(** ** Predicates on strings used in the statements *)

Module Text.

(** No colon in [s]. *)
Definition no_colon (s : string) : bool := negb (JS.includes s ":").

(** Every character of [s] is white space for [trim]. *)
Fixpoint all_space (s : string) : bool :=
  match s with
  | EmptyString => true
  | String c s' => JS.is_space c && all_space s'
  end.

(** No blank line in [s]: no two line feeds in a row. *)
Definition no_blank_line (s : string) : bool :=
  negb (JS.includes s Worker.paragraph_break).

(** [t] is a prefix of [s]. *)
Definition is_prefix (t s : string) : Prop := exists r, s = t +:+ r.

(** The length of the paragraphs of a list, a paragraph break counted
    after each. *)
Fixpoint weight (paras : list string) : nat :=
  match paras with
  | [] => 0
  | p :: rest => JS.len p + 2 + weight rest
  end.

(** One when a chunk is being filled, zero otherwise. *)
Definition open_chunk (s : string) : nat := if JS.truthy s then 1 else 0.

End Text.

(** ** Observations on requests *)

Module Obs.

Import Worker.

(** A required field of the request is missing or empty. *)
Definition missing_field (request : Request) : bool :=
  match request with
  | PostQuery b => negb (JS.truthy (QueryRequest.query b))
  | PostIndex b =>
      negb (JS.truthy (IndexRequest.agent b))
      || negb (JS.truthy (IndexRequest.text b))
  | PostCapture b =>
      negb (JS.truthy (CaptureRequest.agent b))
      || negb (JS.truthy (CaptureRequest.content b))
  | PostIndexFile b =>
      negb (JS.truthy (IndexFileRequest.agent b))
      || negb (JS.truthy (IndexFileRequest.file b))
  | OtherRequest | Options | GetStats | Health => false
  end.

(** The calls to [AI.run] in a trace. *)
Fixpoint embedded (t : list Call) : list string :=
  match t with
  | [] => []
  | AiRun text :: t' => text :: embedded t'
  | _ :: t' => embedded t'
  end.

(** The effect of a request that went from [w] to [w'] with the answer
    [r]: some vectors were upserted and nothing else touched the index,
    and an answer 400 means that nothing happened at all. *)
Definition frames (w : World) (r : Response) (w' : World) : Prop :=
  exists vs : list VectorizeVector,
    store w' = upsert_store (store w) vs
    /\ written (trace w') = written (trace w) ++ vs
    /\ (status r = 400 -> w' = w).

End Obs.

(** ** Regular expressions with classes ([plugin/index.ts]) *)

Module Rx.

(** The patterns of [MEMORY_TRIGGERS]: literals, alternation, sequence and
    a class repeated [n] times or more ([\d{10,}], [\s+], [\w+]).  [Fail]
    matches nothing; it stands for a code unit above 255 in a pattern (the
    letter U+0161 of one trigger), which no code unit below 256 equals,
    with or without the [i] flag. *)
Inductive re :=
| Eps
| Lit (a : ascii)
| Fail
| AtLeast (n : nat) (cls : ascii -> bool)
| Seq (r1 r2 : re)
| Alt (r1 r2 : re).

(** Zero or more characters of the class, then [k] on what is left. *)
Fixpoint many (cls : ascii -> bool) (s : string) (k : string -> bool) : bool :=
  k s
  || match s with
     | String c s' => cls c && many cls s' k
     | EmptyString => false
     end.

Fixpoint at_least (n : nat) (cls : ascii -> bool) (s : string)
    (k : string -> bool) : bool :=
  match n with
  | O => many cls s k
  | S n' =>
      match s with
      | String c s' => cls c && at_least n' cls s' k
      | EmptyString => false
      end
  end.

(** [r] matches a prefix of [s] and [k] accepts the rest. *)
Fixpoint run (ic : bool) (r : re) (s : string) (k : string -> bool) : bool :=
  match r with
  | Eps => k s
  | Lit a =>
      match s with
      | String c s' => JS.char_eq ic c a && k s'
      | EmptyString => false
      end
  | Fail => false
  | AtLeast n cls => at_least n cls s k
  | Seq r1 r2 => run ic r1 s (fun s' => run ic r2 s' k)
  | Alt r1 r2 => run ic r1 s k || run ic r2 s k
  end.

(** [r] matches somewhere in [s]. *)
Fixpoint search (ic : bool) (r : re) (s : string) : bool :=
  run ic r s (fun _ => true)
  || match s with
     | String _ s' => search ic r s'
     | EmptyString => false
     end.

Record RegExp := { pattern : re; ignoreCase : bool }.

(** [r.test(s)] *)
Definition test (r : RegExp) (s : string) : bool :=
  search (ignoreCase r) (pattern r) s.

(** The literal word [w]. *)
Fixpoint word (w : string) : re :=
  match w with
  | EmptyString => Eps
  | String a w' => Seq (Lit a) (word w')
  end.

(** [r1|r2|...|rn] *)
Fixpoint any_of (rs : list re) : re :=
  match rs with
  | [] => Fail
  | r :: rs' =>
      match rs' with
      | [] => r
      | _ => Alt r (any_of rs')
      end
  end.

(** [\d] *)
Definition digit (c : ascii) : bool :=
  ((48 <=? JS.code c) && (JS.code c <=? 57))%N.

(** [\w] *)
Definition word_char (c : ascii) : bool :=
  digit c
  || ((65 <=? JS.code c) && (JS.code c <=? 90))%N
  || ((97 <=? JS.code c) && (JS.code c <=? 122))%N
  || (JS.code c =? 95)%N.

(** [\s], on code units below 256 the white space of [trim]. *)
Definition space (c : ascii) : bool := JS.is_space c.

(** [[\w.-]] *)
Definition word_dot_dash (c : ascii) : bool :=
  word_char c || (JS.code c =? 46)%N || (JS.code c =? 45)%N.

End Rx.

(** ** The plugin: what is worth capturing ([plugin/index.ts]) *)

Module Capture.

Import Rx.

Definition words_i (ws : list string) : RegExp :=
  {| pattern := any_of (map word ws); ignoreCase := true |}.

(** [/prefer|radši|like|love|hate|want|need/i] *)
Definition preference_trigger : RegExp :=
  {| pattern :=
       any_of [word "prefer";
               Seq (word "rad") (Seq Fail (word "i"));
               word "like"; word "love"; word "hate"; word "want";
               word "need"];
     ignoreCase := true |}.

(** [/\+\d{10,}/] *)
Definition phone_trigger : RegExp :=
  {| pattern := Seq (Lit "+") (AtLeast 10 digit); ignoreCase := false |}.

(** [/[\w.-]+@[\w.-]+\.\w+/] *)
Definition email_trigger : RegExp :=
  {| pattern :=
       Seq (AtLeast 1 word_dot_dash)
         (Seq (Lit "@")
            (Seq (AtLeast 1 word_dot_dash)
               (Seq (Lit ".") (AtLeast 1 word_char))));
     ignoreCase := false |}.

(** [/my\s+\w+\s+is|is\s+my/i] *)
Definition fact_trigger : RegExp :=
  {| pattern :=
       Alt (Seq (word "my")
              (Seq (AtLeast 1 space)
                 (Seq (AtLeast 1 word_char)
                    (Seq (AtLeast 1 space) (word "is")))))
           (Seq (word "is") (Seq (AtLeast 1 space) (word "my")));
     ignoreCase := true |}.

Definition MEMORY_TRIGGERS : list RegExp :=
  [ words_i ["remember"; "zapamatuj"];
    preference_trigger;
    words_i ["decided"; "decision"; "will use"; "budeme"];
    words_i ["learned"; "realized"; "discovered"];
    words_i ["actually"; "no,"; "that's wrong"; "correction"];
    words_i ["important"; "always"; "never"];
    phone_trigger;
    email_trigger;
    fact_trigger ].

(** [MEMORY_TRIGGERS.some((r) => r.test(text))] *)
Definition triggered (text : string) : bool :=
  existsb (fun r => test r text) MEMORY_TRIGGERS.

(** A code point of [[\u{1F300}-\u{1F9FF}]]. *)
Definition is_pictograph (c : ascii) : bool :=
  ((127744 <=? JS.code c) && (JS.code c <=? 129535))%N.

(** [(text.match(/[\u{1F300}-\u{1F9FF}]/gu) || []).length].  No code
    unit below 256 is in the range: on the texts of this embedding the
    count is 0. *)
Definition emojiCount (text : string) : nat :=
  length (List.filter is_pictograph (JS.chars text)).

Definition memories_marker : string := "<relevant-memories>".

Definition shouldCapture (text : string) : bool :=
  if (JS.len text <? 10)%nat || (500 <? JS.len text)%nat then false
  else if JS.includes text memories_marker then false
  else if JS.starts false text "<" && JS.includes text "</" then false
  else if JS.includes text "**" && JS.includes text (String "010" "-")
       then false
  else if (3 <? emojiCount text)%nat then false
  else triggered text.

End Capture.

(** ** The plugin: client and hooks ([plugin/index.ts]) *)

Module Hooks.

Import Worker.

(** The configuration, a [Partial<PluginConfig>].  The hooks below are
    the bodies that [register] installs; the registration itself (the
    check of [workerUrl], the flags [autoRecall] and [autoCapture]) and
    the two tools are not modelled. *)
Record PluginConfig := {
  workerUrl : option string;
  autoRecall : option bool;
  autoCapture : option bool;
  minRecallScore : option Q;
  recallLimit : option Q
}.

(** [response.ok] *)
Definition ok (r : Response) : bool :=
  (200 <=? status r)%nat && (status r <=? 299)%nat.

(** The calls of [VectorizeClient] go to the worker of this repository:
    the request is handed to [Worker.fetch], and an answer that is not
    [ok] is the thrown error, [None]. *)
Definition send (env : Env) (request : Request) : M (option Response) :=
  r <- fetch env request ;;
  ret (if ok r then Some r else None).

(** [client.query(queryText, options)] *)
Definition client_query (env : Env) (queryText : string)
    (agent type : option string) (topK minScore : option Q)
  : M (option Response) :=
  send env
    (PostQuery
       {| QueryRequest.query := queryText;
          QueryRequest.agent := agent;
          QueryRequest.type := type;
          QueryRequest.topK := Some (JS.nullish topK 5%Q);
          QueryRequest.minScore := Some (JS.nullish minScore 0.5%Q) |}).

(** [client.capture(agent, content, classification)] *)
Definition client_capture (env : Env) (agent content : string)
    (classification : option string) : M (option Response) :=
  send env
    (PostCapture
       {| CaptureRequest.agent := agent;
          CaptureRequest.content := content;
          CaptureRequest.classification := classification |}).

(** [l.join(sep)] *)
Fixpoint join (sep : string) (l : list string) : string :=
  match l with
  | [] => ""
  | [s] => s
  | s :: rest => s +:+ sep +:+ join sep rest
  end.

(** The line of a memory in the injected block; reading the fields of a
    match without metadata throws, which is [None]. *)
Definition memory_line (m : QueryMatch) : option string :=
  match out_metadata m with
  | Some md => Some ("- [" +:+ type md +:+ "] " +:+ raw_text md)
  | None => None
  end.

Fixpoint memory_lines (ms : list QueryMatch) : option (list string) :=
  match ms with
  | [] => Some []
  | m :: rest =>
      match memory_line m, memory_lines rest with
      | Some l, Some ls => Some (l :: ls)
      | _, _ => None
      end
  end.

Definition LF : string := String "010" "".

Definition memories_block (memoryContext : string) : string :=
  "<relevant-memories>" +:+ LF
  +:+ "The following memories may be relevant to this conversation:" +:+ LF
  +:+ memoryContext +:+ LF +:+ "</relevant-memories>".

(** The hook [before_agent_start]: the context to prepend, if any.  A
    failure of the recall is logged and gives nothing. *)
Definition before_agent_start (env : Env) (cfg : PluginConfig)
    (agentId : string) (prompt : option string) : M (option string) :=
  match prompt with
  | None => ret None
  | Some p =>
      if negb (JS.truthy p) || (JS.len p <? 5)%nat then ret None
      else
        results <- client_query env p (Some agentId) None
                     (Some (JS.nullish (recallLimit cfg) 3%Q))
                     (Some (JS.nullish (minRecallScore cfg) 0.5%Q)) ;;
        match results with
        | Some {| body := QueryBody _ count matches |} =>
            if (count =? 0)%nat then ret None
            else
              match memory_lines matches with
              | Some lines => ret (Some (memories_block (join LF lines)))
              | None => ret None
              end
        | _ => ret None
        end
  end.

(** What the hook [agent_end] reads of the messages of the event. *)
Inductive Block := TextBlock (text : string) | OtherBlock.

Inductive Content :=
| StringContent (s : string)
| ArrayContent (blocks : list Block)
| OtherContent.

Inductive Message :=
| Msg (role : string) (content : Content)
| NotAnObject.

Record AgentEndEvent := {
  success : bool;
  messages : option (list Message)
}.

Definition block_texts (b : Block) : list string :=
  match b with
  | TextBlock text => [text]
  | OtherBlock => []
  end.

Definition message_texts (m : Message) : list string :=
  match m with
  | NotAnObject => []
  | Msg role content =>
      if negb (String.eqb role "user") && negb (String.eqb role "assistant")
      then []
      else
        match content with
        | StringContent s => [s]
        | ArrayContent blocks => flat_map block_texts blocks
        | OtherContent => []
        end
  end.

Definition texts_of (ms : list Message) : list string :=
  flat_map message_texts ms.

(** [texts.filter((text) => text && shouldCapture(text))] *)
Definition toCapture (ms : list Message) : list string :=
  List.filter (fun text => JS.truthy text && Capture.shouldCapture text)
    (texts_of ms).

(** How the hook [agent_end] ends: it returned early, it went through
    its loop and stored [n] memories, or a capture failed and the rest of
    the loop was given up. *)
Inductive Outcome := Skipped | Stored (n : nat) | Failed.

(** [result.captured] *)
Definition captured (r : Response) : bool :=
  match body r with
  | Captured _ _ => true
  | _ => false
  end.

(** [for (const text of toCapture.slice(0, 3))] *)
Fixpoint capture_loop (env : Env) (agentId : string) (texts : list string)
    (stored : nat) : M Outcome :=
  match texts with
  | [] => ret (Stored stored)
  | text :: rest =>
      let category := Plugin.detectCategory text in
      result <- client_capture env agentId text
                  (Some (Plugin.type_name category)) ;;
      match result with
      | Some r =>
          capture_loop env agentId rest
            (if captured r then S stored else stored)
      | None => ret Failed
      end
  end.

Definition agent_end (env : Env) (agentId : string) (event : AgentEndEvent)
  : M Outcome :=
  match messages event with
  | None => ret Skipped
  | Some ms =>
      if negb (success event) || (length ms =? 0)%nat then ret Skipped
      else
        match toCapture ms with
        | [] => ret Skipped
        | texts => capture_loop env agentId (firstn 3 texts) 0
        end
  end.

End Hooks.

(** ** Observations on the hooks *)

Module HookObs.

Import Worker Hooks.

(** A text whose category is not [context]. *)
Definition categorised (text : string) : bool :=
  negb (String.eqb (Plugin.type_name (Plugin.detectCategory text)) "context").

(** The texts of an event that reach the loop of [agent_end]. *)
Definition sent_texts (event : AgentEndEvent) : list string :=
  match messages event with
  | Some ms => if success event then firstn 3 (toCapture ms) else []
  | None => []
  end.

(** The threshold and the limit a recall comes to in the worker. *)
Definition recall_minScore (cfg : PluginConfig) : Q :=
  match minRecallScore cfg with
  | None => 0.5%Q
  | Some s => if Qeq_bool s 0 then 0.7%Q else s
  end.

Definition recall_topK (cfg : PluginConfig) : Q :=
  match recallLimit cfg with
  | None => 3%Q
  | Some k => if Qeq_bool k 0 then 5%Q else k
  end.

(** The filter of a recall: the agent, when it has a name. *)
Definition recall_filter (agentId : string) : option Filter :=
  if JS.truthy agentId
  then Some {| filter_agent := Some agentId; filter_type := None |}
  else None.

(** The matches a recall keeps. *)
Definition recalled (env : Env) (cfg : PluginConfig) (agentId p : string)
    (w : World) : list VectorizeMatch :=
  List.filter (score_ok (recall_minScore cfg))
    (nearest env (store w) (EMBEDDING_MODEL env p) (recall_topK cfg)
       (recall_filter agentId)).

End HookObs.

(** ** More concrete requests, events and environments *)

Module Cases.

Import Worker Hooks.

(** An environment whose [dev] bucket holds [MEMORY.md], three paragraphs
    of 300 characters. *)
Definition env_with_file : Env :=
  {| EMBEDDING_MODEL := fun _ => [];
     clock := fun _ => "2026-02-18T12:00:00.000Z";
     nearest := fun _ _ _ _ => [];
     R2 := fun bucket key =>
             match bucket with
             | R2_DEV =>
                 if String.eqb key "MEMORY.md"
                 then Some (Examples.paragraphs 3) else None
             | R2_FLO => None
             end |}.

Definition a_file (agent file : string) : IndexFileRequest.t :=
  {| IndexFileRequest.agent := agent; IndexFileRequest.file := file |}.

(** A query without its text. *)
Definition empty_query : QueryRequest.t :=
  {| QueryRequest.query := "";
     QueryRequest.agent := None;
     QueryRequest.type := None;
     QueryRequest.topK := None;
     QueryRequest.minScore := None |}.

Definition a_memory : MemoryMetadata :=
  {| agent := "flo";
     type := "decision";
     source_file := "auto-capture";
     timestamp := "2026-02-18T12:00:00.000Z";
     chunk_index := 0;
     raw_text := "Decided to use batching for all writes." |}.

Definition a_stored_match (i : string) (s : Q) : VectorizeMatch :=
  {| match_id := i; score := s; match_values := [];
     match_metadata := Some a_memory |}.

(** An index that answers every query with two memories, of scores 0.9
    and 0.6. *)
Definition env_with_memories : Env :=
  Examples.env_with [a_stored_match "a" 0.9%Q; a_stored_match "b" 0.6%Q].

Definition cfg_of (minRecallScore recallLimit : option Q) : PluginConfig :=
  {| workerUrl := Some "https://your-worker.workers.dev";
     autoRecall := None;
     autoCapture := None;
     minRecallScore := minRecallScore;
     recallLimit := recallLimit |}.

(** A request to remember an address: it matches a trigger and its
    category is [context]. *)
Definition a_reminder : string := "Remember that my email is bob@example.com".

(** A preference. *)
Definition a_preference : string := "I prefer tabs over spaces".

(** A run with a reminder, a decision in a text block, a message of the
    system and a value that is not a message. *)
Definition an_event : AgentEndEvent :=
  {| success := true;
     messages :=
       Some [Msg "user" (StringContent a_reminder);
             Msg "assistant"
               (ArrayContent [TextBlock Examples.a_decision; OtherBlock]);
             Msg "system" (StringContent a_preference);
             NotAnObject] |}.

End Cases.

(** * Properties *)

(** Unfolds the operations of the monad [Worker.M] in a run. *)
Ltac run_effects :=
  unfold Worker.ai_run, Worker.r2_get;
  unfold Worker.bind, Worker.now, Worker.vectorize_upsert,
    Worker.vectorize_query, Worker.log, Worker.ret;
  cbn [fst snd Worker.store Worker.trace Worker.ticks].

(** ** Numbers and defaults *)

Section Defaults.

Import Worker.

Lemma or_num_zero (q d : Q) : (q == 0)%Q -> JS.or_num (Some q) d = d.
Proof.
  intros Hq. unfold JS.or_num.
  apply Qeq_bool_iff in Hq. now rewrite Hq.
Qed.

Lemma or_num_given (q d : Q) : ~ (q == 0)%Q -> JS.or_num (Some q) d = q.
Proof.
  intros Hq. unfold JS.or_num.
  destruct (Qeq_bool q 0) eqn:E; [|reflexivity].
  apply Qeq_bool_iff in E. contradiction.
Qed.

Lemma or_num_nonzero (o : option Q) (d : Q) :
  ~ (d == 0)%Q -> ~ (JS.or_num o d == 0)%Q.
Proof.
  intros Hd. destruct o as [q|]; simpl; [|exact Hd].
  destruct (Qeq_bool q 0) eqn:E; [exact Hd|].
  intros Hq. apply Qeq_bool_iff in Hq. congruence.
Qed.

End Defaults.

(** ** [POST /query] *)

Section Query.

Import Worker.

Variable env : Env.

(** The run of the handler on a request that has a query. *)
Lemma handle_query_run (req : QueryRequest.t) (w : World) :
  JS.truthy (QueryRequest.query req) = true ->
  handle_query env req w =
    (let kept := List.filter (score_ok (query_minScore req)) (raw_matches env req w) in
     json (QueryBody (QueryRequest.query req) (length kept)
             (map to_query_match kept)),
     {| store := store w;
        trace := trace w ++
                 [AiRun (QueryRequest.query req);
                  VectorizeQuery (EMBEDDING_MODEL env (QueryRequest.query req))
                    (query_topK req) (query_filter req)];
        ticks := ticks w |}).
Proof.
  intros Hq. unfold handle_query. rewrite Hq. cbn [negb].
  run_effects. unfold raw_matches. now rewrite <- app_assoc.
Qed.

Lemma filter_sublist {A} (f : A -> bool) (l : list A) :
  List.filter f l `sublist_of` l.
Proof.
  induction l as [|a l IH]; cbn.
  - constructor.
  - destruct (f a); now constructor.
Qed.

(** The filtered list is the greatest sublist whose elements pass. *)
Lemma filter_sublist_greatest {A} (f : A -> bool) (l k : list A) :
  k `sublist_of` l -> (forall x, In x k -> f x = true) ->
  k `sublist_of` List.filter f l.
Proof.
  induction 1 as [|x l1 l2 Hs IH|x l1 l2 Hs IH]; intros Hk; cbn.
  - constructor.
  - rewrite (Hk x) by (left; reflexivity).
    apply sublist_skip, IH. intros y Hy. apply Hk. now right.
  - destruct (f x); [apply sublist_cons|]; apply IH, Hk.
Qed.

Lemma descending_filter (f : VectorizeMatch -> bool) (l : list VectorizeMatch) :
  Spec.descending l -> Spec.descending (List.filter f l).
Proof.
  unfold Spec.descending. induction l as [|a l IH]; cbn; intros Hs.
  - constructor.
  - apply StronglySorted_inv in Hs as [Hl Ha].
    destruct (f a); [|auto].
    constructor; [auto|].
    rewrite List.Forall_forall in *. intros x Hx.
    apply List.filter_In in Hx as [Hx _]. auto.
Qed.

(** Under a descending ranking no match scores above the first one. *)
Lemma descending_head (top : VectorizeMatch) (rest : list VectorizeMatch) :
  Spec.descending (top :: rest) ->
  forall m, In m (top :: rest) -> (score m <= score top)%Q.
Proof.
  intros Hs m [<-|Hm].
  - apply Qle_refl.
  - apply StronglySorted_inv in Hs as [_ Ha].
    rewrite List.Forall_forall in Ha. auto.
Qed.

Lemma filter_none {A} (f : A -> bool) (l : list A) :
  (forall x, In x l -> f x = false) -> List.filter f l = [].
Proof.
  induction l as [|a l IH]; cbn; intros H; [reflexivity|].
  rewrite (H a) by auto. apply IH. auto.
Qed.


(** C8, as the code has it.  The answer of [/query] holds exactly the
    matches of the index whose score is at least the threshold of the
    handler, [body.minScore || 0.7]: the [minScore] of the request when it
    is given and not zero, and 0.7 when it is absent or zero.  The entries
    of the answer carry the id, the score and the metadata of the kept
    matches, in the order the index gave them: the kept list is a sublist
    of the raw matches, the greatest one whose scores all reach the
    threshold, still descending when the raw matches were, and its length
    is the count.  When the best raw match scores 0.6 and [minScore] is 0.7
    the answer has count 0 and status 200. *)
Theorem query_returns_matches_at_or_above_minScore
    (req : QueryRequest.t) (w : World) :
  JS.truthy (QueryRequest.query req) = true ->
  exists (threshold : Q) (kept : list VectorizeMatch)
         (matches : list QueryMatch),
    (QueryRequest.minScore req = None -> threshold = 0.7%Q)
    /\ (forall s, QueryRequest.minScore req = Some s -> (s == 0)%Q ->
                  threshold = 0.7%Q)
    /\ (forall s, QueryRequest.minScore req = Some s -> ~ (s == 0)%Q ->
                  threshold = s)
    /\ fst (handle_query env req w) =
         {| status := 200;
            body := QueryBody (QueryRequest.query req) (length kept)
                      matches |}
    /\ map out_id matches = map match_id kept
    /\ map out_score matches = map score kept
    /\ map out_metadata matches = map match_metadata kept
    /\ (forall m, In m kept <->
                  In m (raw_matches env req w) /\ (threshold <= score m)%Q)
    /\ kept `sublist_of` raw_matches env req w
    /\ (forall k, k `sublist_of` raw_matches env req w ->
                  (forall m, In m k -> (threshold <= score m)%Q) ->
                  k `sublist_of` kept)
    /\ (Spec.descending (raw_matches env req w) -> Spec.descending kept)
    /\ (forall top rest s,
          Spec.descending (raw_matches env req w) ->
          raw_matches env req w = top :: rest ->
          (score top == 0.6)%Q ->
          QueryRequest.minScore req = Some s -> (s == 0.7)%Q ->
          kept = [] /\ matches = []).
Proof.
  intros Hq.
  exists (query_minScore req),
    (List.filter (score_ok (query_minScore req)) (raw_matches env req w)),
    (map to_query_match
       (List.filter (score_ok (query_minScore req)) (raw_matches env req w))).
  rewrite (handle_query_run req w Hq). cbn [fst].
  split. { intros Hn. unfold query_minScore. now rewrite Hn. }
  split.
  { intros s Hs Hz. unfold query_minScore. rewrite Hs. now apply or_num_zero. }
  split.
  { intros s Hs Hz. unfold query_minScore. rewrite Hs. now apply or_num_given. }
  split; [reflexivity|].
  split; [now rewrite map_map|].
  split; [now rewrite map_map|].
  split; [now rewrite map_map|].
  split.
  { intros m. rewrite List.filter_In. unfold score_ok.
    now rewrite Qle_bool_iff. }
  split; [apply filter_sublist|].
  split.
  { intros k Hk Hall. apply filter_sublist_greatest; [exact Hk|].
    intros m Hm. unfold score_ok. apply Qle_bool_iff. auto. }
  split; [apply descending_filter|].
  intros top rest s Hdesc Hres Htop Hmin Hs.
  assert (Hnone : List.filter (score_ok (query_minScore req))
                    (raw_matches env req w) = []).
  { apply filter_none. intros m Hm.
    unfold score_ok. destruct (Qle_bool _ _) eqn:E; [|reflexivity].
    exfalso. apply Qle_bool_iff in E.
    rewrite Hres in Hm, Hdesc.
    pose proof (descending_head top rest Hdesc m Hm) as Hle.
    unfold query_minScore in E. rewrite Hmin in E.
    rewrite or_num_given in E by (rewrite Hs; discriminate).
    rewrite Hs in E. rewrite Htop in Hle.
    assert (H : (0.7 <= 0.6)%Q) by (eapply Qle_trans; eauto).
    revert H. unfold Qle. cbn. lia. }
  now rewrite Hnone.
Qed.

(** C3, as the code has it.  The handler does not clamp: a [topK] or a
    [minScore] that is given and not zero reaches the index call and the
    score filter unchanged, whatever its range, one that is absent or zero
    is replaced by the default, 5 and 0.7, and the request is answered with
    status 200. *)
Theorem query_forwards_topK_and_minScore
    (req : QueryRequest.t) (w : World) :
  JS.truthy (QueryRequest.query req) = true ->
  (forall k, QueryRequest.topK req = Some k -> ~ (k == 0)%Q ->
             query_topK req = k)
  /\ (forall s, QueryRequest.minScore req = Some s -> ~ (s == 0)%Q ->
                query_minScore req = s)
  /\ status (fst (handle_query env req w)) = 200
  /\ trace (snd (handle_query env req w)) =
       trace w ++
       [AiRun (QueryRequest.query req);
        VectorizeQuery (EMBEDDING_MODEL env (QueryRequest.query req))
          (query_topK req) (query_filter req)]
  /\ body (fst (handle_query env req w)) =
       QueryBody (QueryRequest.query req)
         (length (List.filter (score_ok (query_minScore req))
                    (raw_matches env req w)))
         (map to_query_match
            (List.filter (score_ok (query_minScore req))
               (raw_matches env req w)))
  /\ (QueryRequest.topK req = None -> query_topK req = 5%Q)
  /\ (forall k, QueryRequest.topK req = Some k -> (k == 0)%Q ->
                query_topK req = 5%Q)
  /\ (QueryRequest.minScore req = None -> query_minScore req = 0.7%Q)
  /\ (forall s, QueryRequest.minScore req = Some s -> (s == 0)%Q ->
                query_minScore req = 0.7%Q)
  /\ (forall m, score_ok (query_minScore req) m = true <->
                (query_minScore req <= score m)%Q)
  /\ map out_id (map to_query_match (raw_matches env req w)) =
       map match_id (raw_matches env req w)
  /\ map out_score (map to_query_match (raw_matches env req w)) =
       map score (raw_matches env req w).
Proof.
  intros Hq. rewrite (handle_query_run req w Hq). cbn [fst snd].
  split.
  { intros k Hk Hz. unfold query_topK. rewrite Hk. now apply or_num_given. }
  split.
  { intros s Hs Hz. unfold query_minScore. rewrite Hs. now apply or_num_given. }
  split; [reflexivity|]. split; [reflexivity|]. split; [reflexivity|].
  split. { intros Hn. unfold query_topK. now rewrite Hn. }
  split.
  { intros k Hk Hz. unfold query_topK. rewrite Hk. now apply or_num_zero. }
  split. { intros Hn. unfold query_minScore. now rewrite Hn. }
  split.
  { intros s Hs Hz. unfold query_minScore. rewrite Hs. now apply or_num_zero. }
  split. { intros m. unfold score_ok. apply Qle_bool_iff. }
  split; now rewrite map_map.
Qed.

(** C10.  A request that spells out [topK = 0] or [minScore = 0] gets the
    defaults 5 and 0.7, because the defaults are taken with [||]; so the
    threshold of the score filter is never 0, and the handler calls the
    index and filters with the defaults. *)
Theorem query_zero_takes_defaults (req : QueryRequest.t) (w : World) :
  (forall k, QueryRequest.topK req = Some k -> (k == 0)%Q ->
             query_topK req = 5%Q)
  /\ (forall s, QueryRequest.minScore req = Some s -> (s == 0)%Q ->
                query_minScore req = 0.7%Q)
  /\ ~ (query_minScore req == 0)%Q
  /\ (JS.truthy (QueryRequest.query req) = true ->
      forall k s,
        QueryRequest.topK req = Some k -> (k == 0)%Q ->
        QueryRequest.minScore req = Some s -> (s == 0)%Q ->
        handle_query env req w =
          (let kept := List.filter (score_ok 0.7%Q) (raw_matches env req w) in
           json (QueryBody (QueryRequest.query req) (length kept)
                   (map to_query_match kept)),
           {| store := store w;
              trace := trace w ++
                       [AiRun (QueryRequest.query req);
                        VectorizeQuery
                          (EMBEDDING_MODEL env (QueryRequest.query req))
                          5%Q (query_filter req)];
              ticks := ticks w |})).
Proof.
  assert (Hk : forall k, QueryRequest.topK req = Some k -> (k == 0)%Q ->
                         query_topK req = 5%Q).
  { intros k Hk Hz. unfold query_topK. rewrite Hk. now apply or_num_zero. }
  assert (Hs : forall s, QueryRequest.minScore req = Some s -> (s == 0)%Q ->
                         query_minScore req = 0.7%Q).
  { intros s Hs Hz. unfold query_minScore. rewrite Hs. now apply or_num_zero. }
  split; [exact Hk|]. split; [exact Hs|]. split.
  { unfold query_minScore. apply or_num_nonzero. discriminate. }
  intros Hq k s Hk1 Hk0 Hs1 Hs0.
  rewrite (handle_query_run req w Hq).
  now rewrite (Hk k Hk1 Hk0), (Hs s Hs1 Hs0).
Qed.

End Query.

Section QueryExamples.

Import Worker Examples.

(** The threshold at work: one raw match of score 0.6, [minScore] 0.7. *)
Lemma query_returns_matches_witness :
  JS.truthy (QueryRequest.query (a_query None (Some 0.7%Q))) = true
  /\ fst (handle_query (env_with [a_match "m" 0.6%Q])
            (a_query None (Some 0.7%Q)) empty_world) =
       {| status := 200; body := QueryBody "deployment decisions" 0 [] |}.
Proof.
  split; [reflexivity|].
  destruct (query_returns_matches_at_or_above_minScore
              (env_with [a_match "m" 0.6%Q]) (a_query None (Some 0.7%Q))
              empty_world eq_refl)
    as (threshold & kept & matches & _ & _ & _ & Hrun & _ & _ & _ & _ & _
        & _ & _ & Htop).
  destruct (Htop (a_match "m" 0.6%Q) [] 0.7%Q) as [Hk Hm].
  - repeat constructor.
  - reflexivity.
  - reflexivity.
  - reflexivity.
  - reflexivity.
  - rewrite Hrun, Hk, Hm. reflexivity.
Defined.

(** C8, as the specification has it, fails: a request with [minScore = 0]
    asks for every match of score 0 or more; the index answers with
    matches of score 0.9 and 0.5, and the answer holds the first one
    only. *)
Lemma query_zero_minScore_drops_a_match :
  QueryRequest.minScore (a_query None (Some 0%Q)) = Some 0%Q
  /\ raw_matches (env_with [a_match "a" 0.9%Q; a_match "b" 0.5%Q])
       (a_query None (Some 0%Q)) empty_world
     = [a_match "a" 0.9%Q; a_match "b" 0.5%Q]
  /\ (0 <= score (a_match "b" 0.5%Q))%Q
  /\ fst (handle_query (env_with [a_match "a" 0.9%Q; a_match "b" 0.5%Q])
            (a_query None (Some 0%Q)) empty_world)
     = {| status := 200;
          body := QueryBody "deployment decisions" 1
                    [{| out_id := "a"; out_score := 0.9%Q;
                        out_metadata := None |}] |}.
Proof.
  split; [reflexivity|]. split; [reflexivity|]. split; [|reflexivity].
  unfold Qle. cbn. lia.
Qed.

(** C3, as the specification has it, fails: with [topK = -3] and
    [minScore = 1.5] the index is called with -3, and a match of score 1 is
    dropped by the threshold 1.5. *)
Lemma query_out_of_range_is_not_clamped :
  trace (snd (handle_query (env_with [a_match "m" 1%Q]) out_of_range_query
                empty_world))
  = [AiRun "deployment decisions"; VectorizeQuery [] (-3)%Q None]
  /\ ~ (1 <= query_topK out_of_range_query)%Q
  /\ ~ (query_minScore out_of_range_query <= 1)%Q
  /\ body (fst (handle_query (env_with [a_match "m" 1%Q]) out_of_range_query
                  empty_world))
     = QueryBody "deployment decisions" 0 [].
Proof.
  split; [reflexivity|]. split; [|split; [|reflexivity]].
  - intros H. vm_compute in H. now apply H.
  - intros H. vm_compute in H. now apply H.
Qed.

(** The out-of-range request is answered, with its values as given. *)
Lemma query_forwards_witness :
  JS.truthy (QueryRequest.query out_of_range_query) = true
  /\ query_topK out_of_range_query = (-3)%Q
  /\ query_minScore out_of_range_query = 1.5%Q
  /\ status (fst (handle_query quiet_env out_of_range_query empty_world)) = 200.
Proof.
  split; [reflexivity|].
  destruct (query_forwards_topK_and_minScore quiet_env out_of_range_query
              empty_world eq_refl) as (Hk & Hs & Hst & _).
  split; [apply Hk; [reflexivity | discriminate]|].
  split; [apply Hs; [reflexivity | discriminate]|].
  exact Hst.
Defined.

(** With [minScore = 0] spelled out, a match of score 0.5 is still dropped. *)
Lemma query_zero_takes_defaults_witness :
  query_topK zero_query = 5%Q
  /\ query_minScore zero_query = 0.7%Q
  /\ fst (handle_query (env_with [a_match "m" 0.5%Q]) zero_query empty_world)
     = json (QueryBody "deployment decisions" 0 []).
Proof.
  destruct (query_zero_takes_defaults (env_with [a_match "m" 0.5%Q])
              zero_query empty_world) as (Hk & Hs & _ & Hrun).
  split; [apply (Hk 0%Q); reflexivity|].
  split; [apply (Hs 0%Q); reflexivity|].
  rewrite (Hrun eq_refl 0%Q 0%Q); reflexivity.
Defined.

End QueryExamples.

(** ** Category detection *)

Section Classifier.

Import Plugin.

(** [detectCategory] is the first match of the precedence table. *)
Lemma detectCategory_first_match (text : string) :
  detectCategory text = Spec.classify text.
Proof.
  unfold detectCategory, Spec.classify, Spec.precedence, Spec.first_match.
  unfold Spec.correction_language, Spec.preference_language,
    Spec.decision_language, Spec.learning_language.
  now repeat destruct (JS.test _ _).
Qed.

(** In the plugin correction language wins over every other kind. *)
Lemma detectCategory_correction_wins (text : string) :
  Spec.correction_language text = true -> detectCategory text = correction.
Proof.
  unfold Spec.correction_language, detectCategory. now intros ->.
Qed.

Lemma detectCategory_preference_next (text : string) :
  Spec.correction_language text = false ->
  Spec.preference_language text = true ->
  detectCategory text = preference.
Proof.
  unfold Spec.correction_language, Spec.preference_language, detectCategory.
  now intros -> ->.
Qed.

Lemma detectCategory_decision_next (text : string) :
  Spec.correction_language text = false ->
  Spec.preference_language text = false ->
  Spec.decision_language text = true ->
  detectCategory text = decision.
Proof.
  unfold Spec.correction_language, Spec.preference_language,
    Spec.decision_language, detectCategory.
  now intros -> -> ->.
Qed.

End Classifier.

(** ** [POST /capture] *)

Section Capture.

Import Worker Examples.

Variable env : Env.

Lemma upserts_app (t1 t2 : list Call) :
  upserts (t1 ++ t2) = upserts t1 ++ upserts t2.
Proof.
  induction t1 as [|c t1 IH]; [reflexivity|].
  destruct c; cbn; now rewrite IH.
Qed.

Lemma written_app (t1 t2 : list Call) :
  written (t1 ++ t2) = written t1 ++ written t2.
Proof. unfold written. now rewrite upserts_app, concat_app. Qed.

(** The run of the handler on a turn that is worth capturing. *)
Lemma handle_capture_run (req : CaptureRequest.t) (w : World) :
  JS.truthy (CaptureRequest.agent req) = true ->
  JS.truthy (CaptureRequest.content req) = true ->
  capture_type req <> "context" ->
  handle_capture env req w =
    (let v := capture_vector req (capture_type req)
                (EMBEDDING_MODEL env (CaptureRequest.content req))
                (clock env (ticks w)) in
     (json (Captured (capture_type req) (id v)),
      {| store := <[id v := v]> (store w);
         trace := trace w ++
                  [AiRun (CaptureRequest.content req); VectorizeUpsert [v]];
         ticks := S (ticks w) |})).
Proof.
  intros Ha Hc Ht. unfold handle_capture. rewrite Ha, Hc. cbn [negb orb].
  apply String.eqb_neq in Ht. rewrite Ht.
  run_effects. cbn [upsert_store fold_left]. now rewrite <- app_assoc.
Qed.

(** The handler of [/capture] never asks the index for neighbours. *)
Lemma handle_capture_no_query (req : CaptureRequest.t) (w : World) :
  List.filter is_query (trace (snd (handle_capture env req w)))
  = List.filter is_query (trace w).
Proof.
  unfold handle_capture.
  destruct (negb _ || negb _); [reflexivity|].
  destruct (String.eqb _ _); [reflexivity|].
  run_effects. rewrite !List.filter_app. cbn. now rewrite !app_nil_r.
Qed.

(** Its answer does not depend on what the index holds. *)
Lemma handle_capture_answer (req : CaptureRequest.t) (w w' : World) :
  fst (handle_capture env req w) = fst (handle_capture env req w').
Proof.
  unfold handle_capture.
  destruct (negb _ || negb _); [reflexivity|].
  destruct (String.eqb _ _); reflexivity.
Qed.

(** Without a classification the words decide, in the order of the
    handler: decision, correction, learning, preference. *)
Lemma capture_type_order (req : CaptureRequest.t) :
  CaptureRequest.classification req = None ->
  let has := JS.includes (JS.toLowerCase (CaptureRequest.content req)) in
  capture_type req =
    if has "decided" || has "decision" then "decision"
    else if has "actually" || has "no," || has "that's wrong" then "correction"
    else if has "learned" || has "realized" then "learning"
    else if has "prefer" || has "like" || has "want" then "preference"
    else "context".
Proof. intros H. unfold capture_type. now rewrite H. Qed.

(** Without a classification the stored type is one of the six. *)
Lemma capture_type_heuristic_closed (req : CaptureRequest.t) :
  CaptureRequest.classification req = None ->
  is_memory_type (capture_type req) = true.
Proof.
  intros H. rewrite (capture_type_order req H). cbn zeta.
  now repeat destruct (_ || _).
Qed.

(** A classification that is given is taken as it is. *)
Lemma capture_type_passthrough (req : CaptureRequest.t) (c : string) :
  CaptureRequest.classification req = Some c -> JS.truthy c = true ->
  capture_type req = c.
Proof. intros H Hc. unfold capture_type. rewrite H. cbn. now rewrite Hc. Qed.

(** [/capture] cuts the stored text at 1000 characters. *)
Lemma slice0_length (n : nat) (s : string) : (JS.len (JS.slice0 n s) <= n)%nat.
Proof.
  unfold JS.slice0, JS.len. revert s.
  induction n as [|n IH]; intros [|c s]; cbn; try lia.
  specialize (IH s). lia.
Qed.

Lemma capture_raw_text_capped (req : CaptureRequest.t) (memoryType : string)
    (vector : list Q) (time : string) :
  (JS.len (raw_text (metadata (capture_vector req memoryType vector time)))
   <= 1000)%nat.
Proof. apply slice0_length. Qed.

(** C1.  The heuristics of [/capture] test decision words before
    correction words: a sentence with correction and decision language is
    a correction for [detectCategory] and for the precedence table, and is
    stored as a decision by the worker when no classification comes with
    it; so is a sentence with correction, preference and decision language. *)
Theorem capture_heuristics_test_decision_before_correction (w : World) :
  Spec.correction_language correction_and_decision = true
  /\ Spec.classify correction_and_decision = Plugin.correction
  /\ Plugin.detectCategory correction_and_decision = Plugin.correction
  /\ body (fst (handle_capture env (a_capture correction_and_decision None) w))
     = Captured "decision"
         (generateId "dev" "capture" correction_and_decision)
  /\ Spec.correction_language correction_and_preference = true
  /\ Spec.preference_language correction_and_preference = true
  /\ Plugin.detectCategory correction_and_preference = Plugin.correction
  /\ body (fst (handle_capture env (a_capture correction_and_preference None) w))
     = Captured "decision"
         (generateId "dev" "capture" correction_and_preference).
Proof.
  repeat split; reflexivity.
Qed.

(** C2.  [/capture] has no duplicate suppression: whatever the index
    holds and whatever its search would return, the handler never queries
    it, and the same sentence sent twice in sequence is answered
    [captured: true] twice and upserted twice under one id. *)
Theorem capture_twice_is_captured_twice (w : World) :
  let req := a_capture a_decision None in
  let first := handle_capture env req w in
  let second := handle_capture env req (snd first) in
  body (fst first) = Captured "decision" (generateId "dev" "capture" a_decision)
  /\ fst second = fst first
  /\ List.filter is_query (trace (snd second)) = List.filter is_query (trace w)
  /\ map (map id) (upserts (trace (snd second))) =
     map (map id) (upserts (trace w))
     ++ [[generateId "dev" "capture" a_decision];
         [generateId "dev" "capture" a_decision]].
Proof.
  cbn zeta. split; [now rewrite handle_capture_run|].
  split; [apply handle_capture_answer|].
  split; [now rewrite !handle_capture_no_query|].
  rewrite !handle_capture_run by easy. cbn [snd trace].
  rewrite !upserts_app, !map_app. cbn. now rewrite <- app_assoc.
Qed.

(** C4.  A classification that is not one of the six types is stored as
    it is: [/capture] answers [captured: true] and upserts a vector whose
    type is the caller's free text. *)
Theorem capture_stores_free_text_type (w : World) :
  let req := a_capture "hello there" (Some "banana") in
  let run := handle_capture env req w in
  is_memory_type "banana" = false
  /\ body (fst run) = Captured "banana" (generateId "dev" "capture" "hello there")
  /\ map (fun v => type (metadata v)) (written (trace (snd run)))
     = map (fun v => type (metadata v)) (written (trace w)) ++ ["banana"].
Proof.
  cbn zeta. split; [reflexivity|].
  rewrite handle_capture_run by easy. cbn [fst snd trace].
  split; [reflexivity|].
  rewrite written_app, map_app. reflexivity.
Qed.

End Capture.

(** ** Strings *)

Section Strings.

Lemma append_cons (c : ascii) (s t : string) :
  String c s +:+ t = String c (s +:+ t).
Proof. reflexivity. Qed.

Lemma append_empty_l (s : string) : "" +:+ s = s.
Proof. reflexivity. Qed.

Lemma len_append (s t : string) : JS.len (s +:+ t) = (JS.len s + JS.len t)%nat.
Proof.
  unfold JS.len. induction s as [|c s IH].
  - reflexivity.
  - rewrite append_cons. cbn. now rewrite IH.
Qed.

Lemma append_empty_r (s : string) : s +:+ "" = s.
Proof.
  induction s as [|c s IH]; [reflexivity|].
  now rewrite append_cons, IH.
Qed.

Lemma append_assoc (s t u : string) : (s +:+ t) +:+ u = s +:+ (t +:+ u).
Proof.
  induction s as [|c s IH]; [reflexivity|].
  now rewrite !append_cons, IH.
Qed.

Lemma trimStart_length (s : string) : (JS.len (JS.trimStart s) <= JS.len s)%nat.
Proof.
  unfold JS.len. induction s as [|c s IH]; cbn; [lia|].
  destruct (JS.is_space c); cbn; lia.
Qed.

Lemma trimEnd_length (s : string) : (JS.len (JS.trimEnd s) <= JS.len s)%nat.
Proof.
  unfold JS.len. induction s as [|c s IH]; cbn; [lia|].
  destruct (JS.trimEnd s) as [|d t]; cbn in *.
  - destruct (JS.is_space c); cbn; lia.
  - lia.
Qed.

(** [trim] never makes a string longer. *)
Lemma trim_length (s : string) : (JS.len (JS.trim s) <= JS.len s)%nat.
Proof.
  unfold JS.trim.
  pose proof (trimEnd_length (JS.trimStart s)).
  pose proof (trimStart_length s). lia.
Qed.

(** A run of a letter that is neither a space nor a line feed is one
    paragraph, and [trim] leaves it alone. *)
Variable c : ascii.
Hypothesis c_not_space : JS.is_space c = false.
Hypothesis c_not_nl : JS.is_nl c = false.

Lemma split_go_run (n : nat) (cur : string) :
  JS.split_go false cur (JS.repeat_char c n) = [cur +:+ JS.repeat_char c n].
Proof.
  revert cur. induction n as [|n IH]; intros cur; cbn.
  - now rewrite append_empty_r.
  - rewrite c_not_nl, IH. now rewrite append_assoc, append_cons, append_empty_l.
Qed.

Lemma trimEnd_run (n : nat) :
  JS.trimEnd (JS.repeat_char c n) = JS.repeat_char c n.
Proof.
  induction n as [|n IH]; cbn; [reflexivity|].
  rewrite IH. destruct n; cbn; [now rewrite c_not_space | reflexivity].
Qed.

Lemma trim_run (n : nat) : JS.trim (JS.repeat_char c n) = JS.repeat_char c n.
Proof.
  unfold JS.trim. destruct n; cbn [JS.repeat_char JS.trimStart]; [reflexivity|].
  rewrite c_not_space. apply (trimEnd_run (S n)).
Qed.

Lemma len_run (n : nat) : JS.len (JS.repeat_char c n) = n.
Proof. unfold JS.len. induction n; cbn; congruence. Qed.

(** Such a run, when not empty, is a single chunk whatever the limit. *)
Lemma chunkText_run (n maxChunkSize : nat) :
  Worker.chunkText (JS.repeat_char c (S n)) maxChunkSize
  = [JS.repeat_char c (S n)].
Proof.
  unfold Worker.chunkText, JS.split_paragraphs.
  rewrite split_go_run, append_empty_l.
  cbn [fold_left Worker.chunk_step JS.truthy]. rewrite andb_false_r.
  rewrite !append_empty_l, trim_run. reflexivity.
Qed.

End Strings.

(** ** Chunking *)

Section Chunking.

Import Worker Examples.

(** The loop keeps every chunk within the limit plus the two characters
    of a paragraph break, as long as the paragraphs are within the limit. *)
Lemma chunk_step_bound (maxChunkSize : nat) (chunks : list string)
    (currentChunk para : string) :
  (JS.len para <= maxChunkSize)%nat ->
  Forall (fun c => (JS.len c <= maxChunkSize + 2)%nat) chunks ->
  (JS.len currentChunk <= maxChunkSize + 2)%nat ->
  let st := chunk_step maxChunkSize (chunks, currentChunk) para in
  Forall (fun c => (JS.len c <= maxChunkSize + 2)%nat) (fst st)
  /\ (JS.len (snd st) <= maxChunkSize + 2)%nat.
Proof.
  intros Hp Hc Hcur. cbn zeta. unfold chunk_step.
  destruct (Nat.ltb_spec maxChunkSize (JS.len currentChunk + JS.len para))
    as [Hlt|Hge]; destruct currentChunk as [|a s]; cbn [JS.truthy andb fst snd].
  - split; [exact Hc|]. rewrite !append_empty_l. lia.
  - split; [|lia].
    apply Forall_app. split; [exact Hc|].
    constructor; [|constructor].
    pose proof (trim_length (String a s)). lia.
  - split; [exact Hc|]. rewrite !append_empty_l. lia.
  - split; [exact Hc|].
    rewrite !len_append. unfold paragraph_break.
    change (JS.len (String "010" (String "010" ""))) with 2%nat. lia.
Qed.

Lemma chunk_fold_bound (maxChunkSize : nat) (paras : list string) :
  Forall (fun p => (JS.len p <= maxChunkSize)%nat) paras ->
  forall chunks currentChunk,
    Forall (fun c => (JS.len c <= maxChunkSize + 2)%nat) chunks ->
    (JS.len currentChunk <= maxChunkSize + 2)%nat ->
    let st := fold_left (chunk_step maxChunkSize) paras (chunks, currentChunk) in
    Forall (fun c => (JS.len c <= maxChunkSize + 2)%nat) (fst st)
    /\ (JS.len (snd st) <= maxChunkSize + 2)%nat.
Proof.
  induction 1 as [|p paras Hp Hps IH]; intros chunks cur Hc Hcur; cbn zeta.
  - cbn. auto.
  - cbn [fold_left].
    destruct (chunk_step_bound maxChunkSize chunks cur p Hp Hc Hcur) as [H1 H2].
    destruct (chunk_step maxChunkSize (chunks, cur) p) as [chunks' cur'].
    apply IH; assumption.
Qed.

(** When every paragraph is within the limit, every chunk is within the
    limit plus two. *)
Lemma chunkText_bound (text : string) (maxChunkSize : nat) :
  Forall (fun p => (JS.len p <= maxChunkSize)%nat) (JS.split_paragraphs text) ->
  Forall (fun c => (JS.len c <= maxChunkSize + 2)%nat)
    (chunkText text maxChunkSize).
Proof.
  intros Hp. unfold chunkText.
  destruct (chunk_fold_bound maxChunkSize _ Hp [] "") as [H1 H2].
  { constructor. }
  { cbn. lia. }
  destruct (fold_left _ _ _) as [chunks cur]. cbn [fst snd] in *.
  destruct (JS.truthy (JS.trim cur)); [|exact H1].
  apply Forall_app. split; [exact H1|].
  constructor; [|constructor].
  pose proof (trim_length cur). lia.
Qed.

(** C7.  Two paragraphs of 250 characters, each within the limit of 500,
    are joined into one chunk of 502 characters: the test that closes a
    chunk does not count the paragraph break that joining adds. *)
Theorem chunkText_joins_paragraphs_past_the_limit :
  JS.split_paragraphs two_paragraphs
  = [JS.repeat_char "a" 250; JS.repeat_char "b" 250]
  /\ Forall (fun p => (JS.len p <= defaultChunkSize)%nat)
       (JS.split_paragraphs two_paragraphs)
  /\ chunkText two_paragraphs defaultChunkSize = [two_paragraphs]
  /\ map JS.len (chunkText two_paragraphs defaultChunkSize) = [502%nat]
  /\ (defaultChunkSize < 502)%nat.
Proof.
  assert (Hs : JS.split_paragraphs two_paragraphs
               = [JS.repeat_char "a" 250; JS.repeat_char "b" 250])
    by (vm_compute; reflexivity).
  split; [exact Hs|]. split.
  { rewrite Hs. repeat constructor; rewrite len_run; unfold defaultChunkSize; lia. }
  split; [vm_compute; reflexivity|].
  split; [vm_compute; reflexivity|].
  unfold defaultChunkSize. lia.
Qed.

End Chunking.

(** ** [POST /index] and [POST /index-file] *)

Section Indexing.

Import Worker Examples.

Variable env : Env.

(** The run of the loop that embeds the chunks. *)
Lemma embed_chunks_run
    (build : nat -> string -> list Q -> string -> VectorizeVector)
    (chunks : list string) (i : nat) (w : World) :
  embed_chunks env build i chunks w =
    (built env build i (ticks w) chunks,
     {| store := store w;
        trace := trace w ++ map AiRun chunks;
        ticks := ticks w + length chunks |}).
Proof.
  revert i w. induction chunks as [|chunk rest IH]; intros i w.
  - cbn. unfold ret. destruct w; cbn. now rewrite app_nil_r, Nat.add_0_r.
  - cbn [embed_chunks]. unfold bind at 1 2 3.
    unfold ai_run, now, log, bind, ret. cbn [fst snd store trace ticks].
    rewrite IH. cbn [store trace ticks built map length].
    rewrite <- app_assoc. cbn [app]. now rewrite Nat.add_succ_r.
Qed.

Lemma built_length
    (build : nat -> string -> list Q -> string -> VectorizeVector)
    (chunks : list string) (i t : nat) :
  length (built env build i t chunks) = length chunks.
Proof.
  revert i t. induction chunks as [|c r IH]; intros i t; cbn; [reflexivity|].
  now rewrite IH.
Qed.

(** The ids of the vectors depend on the agent, the source and the chunk,
    not on the embedding, the clock or the position. *)
Lemma built_index_ids (req : IndexRequest.t) (chunks : list string) (i t : nat) :
  map id (built env (index_vector req) i t chunks) =
  map (generateId (IndexRequest.agent req)
         (JS.or_str (IndexRequest.source_file req) "manual")) chunks.
Proof.
  revert i t. induction chunks as [|c r IH]; intros i t; cbn; [reflexivity|].
  now rewrite IH.
Qed.

Lemma built_raw_text
    (build : nat -> string -> list Q -> string -> VectorizeVector)
    (chunks : list string) (i t : nat) :
  (forall j c v s, raw_text (metadata (build j c v s)) = c) ->
  map (fun v => raw_text (metadata v)) (built env build i t chunks) = chunks.
Proof.
  intros Hb. revert i t.
  induction chunks as [|c r IH]; intros i t; cbn; [reflexivity|].
  now rewrite Hb, IH.
Qed.

(** The run of [/index] on a request with an agent and a text: every
    chunk is embedded, then one upsert receives all the vectors. *)
Lemma handle_index_run (req : IndexRequest.t) (w : World) :
  valid_index req ->
  handle_index env req w =
    (let chunks := chunkText (IndexRequest.text req) defaultChunkSize in
     let vectors := built env (index_vector req) 0 (ticks w) chunks in
     (json (IndexBody (length vectors) (map id vectors)),
      {| store := upsert_store (store w) vectors;
         trace := trace w ++ map AiRun chunks ++ [VectorizeUpsert vectors];
         ticks := ticks w + length chunks |})).
Proof.
  intros [Ha Ht]. unfold handle_index. rewrite Ha, Ht. cbn [negb orb].
  unfold bind at 1. rewrite embed_chunks_run.
  unfold bind, vectorize_upsert, ret. cbn [store trace ticks].
  now rewrite <- app_assoc.
Qed.

(** A request without agent or text is refused and changes nothing. *)
Lemma handle_index_refused (req : IndexRequest.t) (w : World) :
  ~ valid_index req ->
  handle_index env req w = (bad_request "agent and text are required", w).
Proof.
  intros Hn. unfold handle_index, valid_index in *.
  destruct (JS.truthy (IndexRequest.agent req)),
    (JS.truthy (IndexRequest.text req)); cbn; try reflexivity.
  exfalso. now apply Hn.
Qed.

Lemma valid_index_dec (req : IndexRequest.t) :
  valid_index req \/ ~ valid_index req.
Proof.
  unfold valid_index.
  destruct (JS.truthy (IndexRequest.agent req)),
    (JS.truthy (IndexRequest.text req)); intuition congruence.
Qed.

End Indexing.

(** ** The index as a map *)

Section Store.

Import Worker.

Lemma upsert_store_dom (vectors : list VectorizeVector)
    (s : gmap string VectorizeVector) :
  dom (upsert_store s vectors) = dom s ∪ list_to_set (map id vectors).
Proof.
  revert s. induction vectors as [|v vs IH]; intros s; cbn.
  - now rewrite (right_id_L ∅ (∪)).
  - unfold upsert_store in *. cbn [fold_left]. rewrite IH, dom_insert_L.
    rewrite (comm_L (∪) {[id v]} (dom s)). now rewrite <- (assoc_L (∪)).
Qed.

Lemma upsert_store_other (vectors : list VectorizeVector)
    (s : gmap string VectorizeVector) (i : string) :
  ~ In i (map id vectors) -> upsert_store s vectors !! i = s !! i.
Proof.
  revert s. induction vectors as [|v vs IH]; intros s Hi; [reflexivity|].
  unfold upsert_store in *. cbn [fold_left]. cbn in Hi.
  rewrite IH by tauto. apply lookup_insert_ne. tauto.
Qed.

(** After an upsert every id of the batch is bound to a vector of the
    batch that carries this id. *)
Lemma upsert_store_lookup (vectors : list VectorizeVector)
    (s : gmap string VectorizeVector) (i : string) :
  In i (map id vectors) ->
  exists v, upsert_store s vectors !! i = Some v /\ In v vectors /\ id v = i.
Proof.
  revert s. induction vectors as [|v vs IH]; intros s Hi; [destruct Hi|].
  destruct (in_dec string_dec i (map id vs)) as [Hin|Hout].
  - destruct (IH (<[id v := v]> s) Hin) as (v' & Hl & Hv & Hid).
    exists v'. cbn. auto.
  - destruct Hi as [Hi|Hi]; [|contradiction].
    exists v. split; [|cbn; auto].
    change (upsert_store (<[id v := v]> s) vs !! i = Some v).
    rewrite upsert_store_other by assumption.
    rewrite Hi. apply lookup_insert_eq.
Qed.

End Store.

(** ** What the write paths store *)

Section Writes.

Import Worker Examples.

Lemma upserts_ai_run (chunks : list string) : upserts (map AiRun chunks) = [].
Proof. induction chunks as [|c r IH]; [reflexivity | exact IH]. Qed.

Lemma upserts_batches (batches : list (list VectorizeVector)) :
  upserts (map VectorizeUpsert batches) = batches.
Proof. induction batches as [|b r IH]; cbn; [reflexivity|]. now rewrite IH. Qed.

(** [/index] gives all its vectors to a single upsert. *)
Lemma handle_index_single_upsert (env : Env) (req : IndexRequest.t) (w : World) :
  valid_index req ->
  upserts (trace (snd (handle_index env req w))) =
  upserts (trace w)
  ++ [built env (index_vector req) 0 (ticks w)
        (chunkText (IndexRequest.text req) defaultChunkSize)].
Proof.
  intros Hv. rewrite (handle_index_run env req w Hv). cbn [snd trace].
  now rewrite !upserts_app, upserts_ai_run.
Qed.

(** The loop of [/index-file] ends within its fuel; its batches are not
    empty, hold at most 100 vectors each and together are the vectors from
    position [i] on. *)
Lemma batch_loop_run (vectors : list VectorizeVector) (fuel : nat) :
  forall (i totalInserted : nat) (w : World),
    (length vectors <= i + fuel)%nat ->
    exists batches : list (list VectorizeVector),
      batch_loop fuel vectors i totalInserted w =
        ((totalInserted + length (skipn i vectors))%nat,
         {| store := fold_left upsert_store batches (store w);
            trace := trace w ++ map VectorizeUpsert batches;
            ticks := ticks w |})
      /\ Forall (fun b => (0 < length b <= 100)%nat) batches
      /\ concat batches = skipn i vectors.
Proof.
  assert (Hend : forall i total w, (length vectors <= i)%nat ->
            ret (A := nat) total w =
              ((total + length (skipn i vectors))%nat,
               {| store := fold_left upsert_store [] (store w);
                  trace := trace w ++ map VectorizeUpsert [];
                  ticks := ticks w |})).
  { intros i total w Hi. rewrite List.skipn_all2 by exact Hi.
    destruct w. unfold ret. cbn. now rewrite app_nil_r, Nat.add_0_r. }
  induction fuel as [|fuel IH]; intros i total w Hfuel.
  - exists []. split; [|split; [constructor|]].
    + cbn [batch_loop]. apply Hend. lia.
    + cbn. now rewrite List.skipn_all2 by lia.
  - cbn [batch_loop]. destruct (Nat.ltb_spec i (length vectors)) as [Hlt|Hge].
    + set (batch := slice i (i + 100) vectors).
      assert (Hsplit : skipn i vectors = batch ++ skipn (i + 100) vectors).
      { unfold batch, slice. replace (i + 100 - i)%nat with 100%nat by lia.
        rewrite <- (List.firstn_skipn 100 (skipn i vectors)) at 1.
        f_equal. rewrite List.skipn_skipn. f_equal. lia. }
      assert (Hlen : (0 < length batch <= 100)%nat).
      { unfold batch, slice. replace (i + 100 - i)%nat with 100%nat by lia.
        rewrite List.length_firstn, List.length_skipn. lia. }
      unfold bind at 1. unfold vectorize_upsert at 1.
      destruct (IH (i + 100)%nat (total + length batch)%nat
                  {| store := upsert_store (store w) batch;
                     trace := trace w ++ [VectorizeUpsert batch];
                     ticks := ticks w |}) as (batches & Hrun & Hall & Hcat);
        [lia|].
      exists (batch :: batches). split; [|split].
      * rewrite Hrun. cbn [store trace ticks fold_left map].
        rewrite Hsplit, length_app, <- app_assoc. cbn [app].
        f_equal. lia.
      * constructor; assumption.
      * cbn [concat]. now rewrite Hcat, Hsplit.
    + exists []. split; [|split; [constructor|]].
      * apply Hend. lia.
      * cbn. now rewrite List.skipn_all2 by lia.
Qed.

(** [/index-file] on a file that its bucket holds: every upsert of the
    run receives at most 100 vectors, and together they receive every
    vector once. *)
Lemma handle_index_file_batches (env : Env) (req : IndexFileRequest.t)
    (bucket : Bucket) (text : string) (w : World) :
  JS.truthy (IndexFileRequest.file req) = true ->
  bucket_of (IndexFileRequest.agent req) = Some bucket ->
  R2 env bucket (IndexFileRequest.file req) = Some text ->
  let chunks := chunkText text defaultChunkSize in
  let vectors := built env (file_vector req) 0 (ticks w) chunks in
  exists batches : list (list VectorizeVector),
    fst (handle_index_file env req w) =
      json (IndexFileBody (IndexFileRequest.file req) (length chunks)
              (length chunks))
    /\ upserts (trace (snd (handle_index_file env req w))) =
       upserts (trace w) ++ batches
    /\ Forall (fun b => (0 < length b <= 100)%nat) batches
    /\ concat batches = vectors.
Proof.
  intros Hf Hb Hr. cbn zeta.
  assert (Ha : JS.truthy (IndexFileRequest.agent req) = true).
  { unfold bucket_of in Hb.
    destruct (IndexFileRequest.agent req); [discriminate|reflexivity]. }
  set (chunks := chunkText text defaultChunkSize).
  set (vectors := built env (file_vector req) 0 (ticks w) chunks).
  set (w1 := {| store := store w;
                trace := (trace w ++ [R2Get bucket (IndexFileRequest.file req)])
                         ++ map AiRun chunks;
                ticks := ticks w + length chunks |}).
  destruct (batch_loop_run vectors (length vectors) 0 0 w1)
    as (batches & Hrun & Hall & Hcat); [lia|].
  exists batches.
  assert (Heq : handle_index_file env req w =
                (json (IndexFileBody (IndexFileRequest.file req)
                         (length vectors) (length vectors)),
                 {| store := fold_left upsert_store batches (store w1);
                    trace := trace w1 ++ map VectorizeUpsert batches;
                    ticks := ticks w1 |})).
  { unfold handle_index_file. rewrite Ha, Hf, Hb. cbn [negb orb].
    unfold bind at 1. unfold r2_get, log, bind at 1, ret at 1. rewrite Hr.
    cbn [fst snd store trace ticks].
    unfold bind at 1. rewrite embed_chunks_run. cbn [store trace ticks].
    fold chunks vectors w1.
    unfold bind, upsert_batches. rewrite Hrun. reflexivity. }
  rewrite Heq. cbn [fst snd trace].
  split; [|split; [|split]]; try assumption.
  - unfold vectors. now rewrite built_length.
  - unfold w1. cbn [trace].
    rewrite !upserts_app, upserts_ai_run, upserts_batches. cbn.
    now rewrite !app_nil_r.
Qed.

Lemma built_file_types (env : Env) (req : IndexFileRequest.t)
    (chunks : list string) (i t : nat) :
  Forall (fun v => type (metadata v) = "context")
    (built env (file_vector req) i t chunks).
Proof.
  revert i t. induction chunks as [|c r IH]; intros i t; cbn;
    constructor; auto.
Qed.

(** [/index-file] stores every chunk as it is, under the type [context]. *)
Lemma handle_index_file_written (env : Env) (req : IndexFileRequest.t)
    (bucket : Bucket) (text : string) (w : World) :
  JS.truthy (IndexFileRequest.file req) = true ->
  bucket_of (IndexFileRequest.agent req) = Some bucket ->
  R2 env bucket (IndexFileRequest.file req) = Some text ->
  let new := skipn (length (written (trace w)))
               (written (trace (snd (handle_index_file env req w)))) in
  map (fun v => raw_text (metadata v)) new = chunkText text defaultChunkSize
  /\ Forall (fun v => type (metadata v) = "context") new.
Proof.
  intros Hf Hb Hr. cbn zeta.
  destruct (handle_index_file_batches env req bucket text w Hf Hb Hr)
    as (batches & _ & Hup & _ & Hcat).
  unfold written. rewrite Hup, concat_app, Hcat.
  rewrite List.skipn_app, List.skipn_all, Nat.sub_diag.
  change (skipn 0 ?l) with l. cbn [app].
  split; [now apply built_raw_text | apply built_file_types].
Qed.

End Writes.

(** ** The claims on the write paths *)

Section WriteClaims.

Import Worker Examples.

(** C5.  The ids [/index] answers with are a function of the agent, the
    source and the chunks of the text alone: indexing the same request
    again, under any embedding, clock and index content, answers the same
    ids, and the index then holds the same ids as after the first run, each
    bound to one vector that carries it. *)
Theorem index_twice_same_ids_same_records
    (env env' : Env) (req : IndexRequest.t) (w : World) :
  let first := handle_index env req w in
  let second := handle_index env' req (snd first) in
  response_ids (fst second) = response_ids (fst first)
  /\ dom (store (snd second)) = dom (store (snd first))
  /\ size (store (snd second)) = size (store (snd first))
  /\ (forall i, In i (response_ids (fst first)) ->
        exists v, store (snd second) !! i = Some v /\ id v = i)
  /\ (valid_index req ->
      response_ids (fst first) =
        map (generateId (IndexRequest.agent req)
               (JS.or_str (IndexRequest.source_file req) "manual"))
          (chunkText (IndexRequest.text req) defaultChunkSize)).
Proof.
  cbn zeta. destruct (valid_index_dec req) as [Hv|Hn].
  - rewrite (handle_index_run env req w Hv). cbn [fst snd].
    rewrite (handle_index_run env' req _ Hv).
    cbn [fst snd store ticks response_ids body json].
    rewrite !built_index_ids.
    assert (Hdom :
      dom (upsert_store
             (upsert_store (store w)
                (built env (index_vector req) 0 (ticks w)
                   (chunkText (IndexRequest.text req) defaultChunkSize)))
             (built env' (index_vector req) 0
                (ticks w + length (chunkText (IndexRequest.text req) defaultChunkSize))
                (chunkText (IndexRequest.text req) defaultChunkSize)))
      = dom (upsert_store (store w)
               (built env (index_vector req) 0 (ticks w)
                  (chunkText (IndexRequest.text req) defaultChunkSize)))).
    { rewrite !upsert_store_dom, !built_index_ids.
      rewrite <- (assoc_L (∪)). now rewrite (idemp_L (∪)). }
    split; [reflexivity|]. split; [exact Hdom|].
    split; [now rewrite <- !size_dom, Hdom|].
    split; [|reflexivity].
    intros i Hi.
    destruct (upsert_store_lookup
                (built env' (index_vector req) 0
                   (ticks w + length (chunkText (IndexRequest.text req) defaultChunkSize))
                   (chunkText (IndexRequest.text req) defaultChunkSize))
                (upsert_store (store w)
                   (built env (index_vector req) 0 (ticks w)
                      (chunkText (IndexRequest.text req) defaultChunkSize)))
                i) as (v & Hl & _ & Hid).
    { now rewrite built_index_ids. }
    exists v. split; assumption.
  - rewrite (handle_index_refused env req w Hn). cbn [fst snd].
    rewrite (handle_index_refused env' req w Hn). cbn.
    repeat split; try reflexivity.
    + intros i [].
    + intros Hv. contradiction.
Qed.

(** C6.  [/index] stores a chunk as it is: a text of [n + 1] letters
    without a paragraph break is one chunk, and its [raw_text] has
    [n + 1] characters, for every [n]; no length caps it. *)
Theorem index_stores_raw_text_uncapped (env : Env) (w : World) (n : nat) :
  let run := handle_index env (an_index (JS.repeat_char "a" (S n))) w in
  map (fun v => JS.len (raw_text (metadata v))) (written (trace (snd run)))
  = map (fun v => JS.len (raw_text (metadata v))) (written (trace w))
    ++ [S n].
Proof.
  cbn zeta. rewrite handle_index_run by (split; reflexivity).
  cbn [snd trace an_index IndexRequest.text].
  rewrite (chunkText_run "a" eq_refl eq_refl n defaultChunkSize).
  unfold written. rewrite !upserts_app, upserts_ai_run. cbn [upserts app concat].
  rewrite concat_app, map_app. cbn [concat]. rewrite app_nil_r.
  f_equal.
  rewrite <- (map_map (fun v => raw_text (metadata v)) JS.len).
  rewrite built_raw_text by reflexivity.
  cbn [map]. now rewrite (len_run "a" (S n)).
Qed.

Lemma paragraphs_101_chunks :
  length (chunkText (paragraphs 101) defaultChunkSize) = 101%nat.
Proof. vm_compute. reflexivity. Qed.

(** C9.  [/index] on a text of 101 paragraphs of 300 characters makes
    101 chunks and gives the 101 vectors to one upsert call. *)
Theorem index_upserts_101_vectors_in_one_call (env : Env) (w : World) :
  let run := handle_index env (an_index (paragraphs 101)) w in
  map length (upserts (trace (snd run)))
  = map length (upserts (trace w)) ++ [101%nat].
Proof.
  cbn zeta. rewrite handle_index_single_upsert
    by (split; vm_compute; reflexivity).
  rewrite map_app. cbn [map]. rewrite built_length.
  cbn [an_index IndexRequest.text].
  now rewrite paragraphs_101_chunks.
Qed.

End WriteClaims.

Section WriteExamples.

Import Worker Examples.

(** The id of a one-chunk text under the default source. *)
Lemma index_twice_witness :
  valid_index (an_index a_decision)
  /\ response_ids (fst (handle_index quiet_env (an_index a_decision) empty_world))
     = ["dev:manual:" +:+ JS.toString16 (hash a_decision)].
Proof.
  assert (Hv : valid_index (an_index a_decision)) by (split; reflexivity).
  split; [exact Hv|].
  destruct (index_twice_same_ids_same_records quiet_env quiet_env
              (an_index a_decision) empty_world) as (_ & _ & _ & _ & Hids).
  rewrite (Hids Hv). reflexivity.
Defined.

End WriteExamples.

(** * Further properties of the worker *)

(** ** The hash of [generateId] *)

Section Identity.

Import Worker.

Lemma toInt32_range (z : Z) : (- 2 ^ 31 <= JS.toInt32 z < 2 ^ 31)%Z.
Proof.
  unfold JS.toInt32.
  pose proof (Z.mod_pos_bound (z + 2 ^ 31) (2 ^ 32) ltac:(lia)). lia.
Qed.

Lemma toInt32_shift (z k : Z) : JS.toInt32 (z + k * 2 ^ 32) = JS.toInt32 z.
Proof.
  unfold JS.toInt32.
  replace (z + k * 2 ^ 32 + 2 ^ 31)%Z with (z + 2 ^ 31 + k * 2 ^ 32)%Z by lia.
  now rewrite Z_mod_plus_full.
Qed.

Lemma toInt32_eq (z : Z) : exists k, JS.toInt32 z = (z + k * 2 ^ 32)%Z.
Proof.
  exists (- ((z + 2 ^ 31) / 2 ^ 32))%Z. unfold JS.toInt32.
  rewrite Z.mod_eq by lia. lia.
Qed.

(** The shift and subtraction of a step multiply by 31 modulo [2^32]. *)
Lemma hash_step_mul31 (h : Z) (c : ascii) :
  hash_step h c = JS.toInt32 (31 * h + Z.of_N (JS.code c)).
Proof.
  unfold hash_step, JS.shl. rewrite Z.shiftl_mul_pow2 by lia.
  destruct (toInt32_eq h) as [k1 ->].
  destruct (toInt32_eq ((h + k1 * 2 ^ 32) * 2 ^ 5)) as [k2 ->].
  replace ((h + k1 * 2 ^ 32) * 2 ^ 5 + k2 * 2 ^ 32 - h + Z.of_N (JS.code c))%Z
    with (31 * h + Z.of_N (JS.code c) + (32 * k1 + k2) * 2 ^ 32)%Z by lia.
  apply toInt32_shift.
Qed.

Lemma chars_append (s t : string) :
  JS.chars (s +:+ t) = JS.chars s ++ JS.chars t.
Proof.
  induction s as [|c s IH]; [reflexivity|].
  rewrite append_cons. cbn. now rewrite IH.
Qed.

Lemma hash_append (s t : string) :
  hash (s +:+ t) = fold_left hash_step (JS.chars t) (hash s).
Proof. unfold hash. now rewrite chars_append, fold_left_app. Qed.

Lemma fold_hash_range (l : list ascii) (h : Z) :
  (- 2 ^ 31 <= h < 2 ^ 31)%Z ->
  (- 2 ^ 31 <= fold_left hash_step l h < 2 ^ 31)%Z.
Proof.
  revert h. induction l as [|c l IH]; intros h Hh; [exact Hh|].
  cbn [fold_left]. apply IH. apply toInt32_range.
Qed.

(** X1.  The hash of a text is a signed 32-bit integer, and a character
    more multiplies it by 31 and adds the code of the character, wrapped to
    32 bits: the shift-and-subtract of the source is the polynomial hash of
    base 31. *)
Theorem hash_is_polynomial_of_base_31 (text : string) (c : ascii) :
  (- 2 ^ 31 <= hash text < 2 ^ 31)%Z
  /\ hash (text +:+ String c "") =
     JS.toInt32 (31 * hash text + Z.of_N (JS.code c)).
Proof.
  split.
  - unfold hash. apply fold_hash_range. lia.
  - rewrite hash_append. cbn [JS.chars fold_left]. apply hash_step_mul31.
Qed.

Lemma toInt32_mul31 (x c : Z) :
  JS.toInt32 (31 * JS.toInt32 x + c) = JS.toInt32 (31 * x + c).
Proof.
  destruct (toInt32_eq x) as [k ->].
  replace (31 * (x + k * 2 ^ 32) + c)%Z with (31 * x + c + (31 * k) * 2 ^ 32)%Z
    by lia.
  apply toInt32_shift.
Qed.

(** X2.  The ids are not free of collisions: two texts that differ by
    [Aa] against [BB] at some place have the same hash, so under one agent
    and source they get the same id. *)
Theorem generateId_collides_on_Aa_BB (agent source p q : string) :
  hash (p +:+ "Aa" +:+ q) = hash (p +:+ "BB" +:+ q)
  /\ generateId agent source (p +:+ "Aa" +:+ q)
     = generateId agent source (p +:+ "BB" +:+ q).
Proof.
  assert (H : hash (p +:+ "Aa" +:+ q) = hash (p +:+ "BB" +:+ q)).
  { rewrite !hash_append, !chars_append, !fold_left_app. f_equal.
    cbn [JS.chars fold_left]. rewrite !hash_step_mul31, !toInt32_mul31.
    f_equal. cbn. lia. }
  split; [exact H|]. unfold generateId. now rewrite H.
Qed.

Lemma char_eq_exact (a b : ascii) : JS.char_eq false a b = true <-> a = b.
Proof. unfold JS.char_eq. apply Ascii.eqb_eq. Qed.

Lemma starts_empty (ic : bool) (s : string) : JS.starts ic s "" = true.
Proof. now destruct s. Qed.

(** A string without colon ends where the first colon is. *)
Lemma split_at_colon (a a' r r' : string) :
  Text.no_colon a = true -> Text.no_colon a' = true ->
  a +:+ ":" +:+ r = a' +:+ ":" +:+ r' -> a = a' /\ r = r'.
Proof.
  unfold Text.no_colon, JS.includes.
  revert a'. induction a as [|c a IH]; intros [|c' a'] Ha Ha' E;
    repeat rewrite ?append_cons, ?append_empty_l in E.
  - inversion E. auto.
  - exfalso. inversion E; subst.
    cbn [JS.occurs JS.starts JS.char_eq] in Ha'.
    rewrite Ascii.eqb_refl, starts_empty in Ha'. discriminate.
  - exfalso. inversion E; subst.
    cbn [JS.occurs JS.starts JS.char_eq] in Ha.
    rewrite Ascii.eqb_refl, starts_empty in Ha. discriminate.
  - inversion E as [[Hc E']]. subst c'.
    destruct (IH a') as [-> ->]; auto.
    + apply negb_true_iff in Ha. apply negb_true_iff.
      cbn [JS.occurs] in Ha. now apply orb_false_iff in Ha as [_ Ha].
    + apply negb_true_iff in Ha'. apply negb_true_iff.
      cbn [JS.occurs] in Ha'. now apply orb_false_iff in Ha' as [_ Ha'].
Qed.

Lemma to_hex_int_not_nil (z : Z) :
  Z.to_hex_int z <> Hexadecimal.Pos Hexadecimal.Nil
  /\ Z.to_hex_int z <> Hexadecimal.Neg Hexadecimal.Nil.
Proof.
  split; intros E; pose proof (f_equal Z.of_hex_int E) as E2;
    rewrite HexadecimalZ.of_to in E2; cbn in E2; subst z; discriminate E.
Qed.

(** Printing in base 16 loses nothing. *)
Lemma toString16_inj (z z' : Z) : JS.toString16 z = JS.toString16 z' -> z = z'.
Proof.
  unfold JS.toString16. intros E.
  apply (f_equal HexadecimalString.NilZero.int_of_string) in E.
  destruct (to_hex_int_not_nil z) as [H1 H2].
  destruct (to_hex_int_not_nil z') as [H1' H2'].
  rewrite !HexadecimalString.NilZero.isi in E by assumption.
  injection E as E.
  apply (f_equal Z.of_hex_int) in E.
  now rewrite !HexadecimalZ.of_to in E.
Qed.

(** X3.  When the agents and the sources hold no colon, an id determines
    its agent, its source and the hash of its text.  With colons the parts
    run into each other: the agent [a:b] with the source [c] and the agent
    [a] with the source [b:c] give the same id to the same text. *)
Theorem generateId_determines_its_parts
    (agent source text agent' source' text' : string) :
  (Text.no_colon agent = true -> Text.no_colon agent' = true ->
   Text.no_colon source = true -> Text.no_colon source' = true ->
   generateId agent source text = generateId agent' source' text' ->
   agent = agent' /\ source = source' /\ hash text = hash text')
  /\ generateId (agent +:+ ":" +:+ source) source' text
     = generateId agent (source +:+ ":" +:+ source') text.
Proof.
  split.
  - intros Ha Ha' Hs Hs' E. unfold generateId in E.
    apply split_at_colon in E as [-> E]; [|assumption..].
    apply split_at_colon in E as [-> E]; [|assumption..].
    apply toString16_inj in E. auto.
  - unfold generateId. now rewrite !append_assoc.
Qed.

End Identity.

Section IdentityExamples.

Import Worker.

(** Two ids under the agent [dev] and the source [manual]. *)
Lemma generateId_determines_witness :
  Text.no_colon "dev" = true
  /\ generateId "dev" "manual" "hello" = generateId "dev" "manual" "hello"
  /\ "dev" = "dev" /\ "manual" = "manual" /\ hash "hello" = hash "hello".
Proof.
  split; [reflexivity|]. split; [reflexivity|].
  apply (generateId_determines_its_parts "dev" "manual" "hello"
           "dev" "manual" "hello"); reflexivity.
Defined.

End IdentityExamples.

(** ** More on chunking *)

Section ChunkingMore.

Import Worker Examples.

Lemma trimEnd_idem (s : string) : JS.trimEnd (JS.trimEnd s) = JS.trimEnd s.
Proof.
  induction s as [|c s IH]; [reflexivity|]. cbn [JS.trimEnd].
  destruct (JS.trimEnd s) as [|d t] eqn:E.
  - destruct (JS.is_space c) eqn:Hc; [reflexivity|].
    cbn [JS.trimEnd]. now rewrite Hc.
  - cbn [JS.trimEnd]. cbn [JS.trimEnd] in IH. now rewrite IH.
Qed.

(** [trimEnd] keeps a first character that is not a space. *)
Lemma trimEnd_head (c : ascii) (s : string) :
  JS.is_space c = false -> exists t, JS.trimEnd (String c s) = String c t.
Proof.
  intros Hc. cbn [JS.trimEnd]. destruct (JS.trimEnd s) as [|d t].
  - rewrite Hc. now exists "".
  - now exists (String d t).
Qed.

Lemma trimStart_head (s : string) :
  JS.trimStart s = ""
  \/ exists c t, JS.trimStart s = String c t /\ JS.is_space c = false.
Proof.
  induction s as [|c s IH]; [now left|]. cbn [JS.trimStart].
  destruct (JS.is_space c) eqn:Hc; [exact IH|]. right. now exists c, s.
Qed.

(** Trimming twice is trimming once. *)
Lemma trim_idem (s : string) : JS.trim (JS.trim s) = JS.trim s.
Proof.
  unfold JS.trim. destruct (trimStart_head s) as [->|(c & t & -> & Hc)].
  - reflexivity.
  - destruct (trimEnd_head c t Hc) as [u Hu]. rewrite Hu.
    cbn [JS.trimStart]. rewrite Hc, <- Hu. apply trimEnd_idem.
Qed.

Lemma chunk_step_trimmed (maxChunkSize : nat) (chunks : list string)
    (currentChunk para : string) :
  Forall (fun c => JS.trim c = c) chunks ->
  Forall (fun c => JS.trim c = c)
    (fst (chunk_step maxChunkSize (chunks, currentChunk) para)).
Proof.
  intros H. unfold chunk_step.
  destruct (_ && _); cbn [fst]; [|exact H].
  apply Forall_app. split; [exact H|].
  constructor; [apply trim_idem | constructor].
Qed.

Lemma chunk_fold_trimmed (maxChunkSize : nat) (paras : list string) :
  forall chunks currentChunk,
    Forall (fun c => JS.trim c = c) chunks ->
    Forall (fun c => JS.trim c = c)
      (fst (fold_left (chunk_step maxChunkSize) paras (chunks, currentChunk))).
Proof.
  induction paras as [|p paras IH]; intros chunks cur H; [exact H|].
  cbn [fold_left].
  pose proof (chunk_step_trimmed maxChunkSize chunks cur p H) as H1.
  destruct (chunk_step maxChunkSize (chunks, cur) p) as [chunks' cur'].
  now apply IH.
Qed.

(** X4.  Every chunk comes out trimmed: no chunk starts or ends with
    white space, whatever the text and the limit. *)
Theorem chunkText_chunks_are_trimmed (text : string) (maxChunkSize : nat) :
  Forall (fun c => JS.trim c = c) (chunkText text maxChunkSize).
Proof.
  unfold chunkText.
  pose proof (chunk_fold_trimmed maxChunkSize (JS.split_paragraphs text) [] ""
                ltac:(constructor)) as H.
  destruct (fold_left _ _ _) as [chunks cur]. cbn [fst] in H.
  destruct (JS.truthy (JS.trim cur)); [|exact H].
  apply Forall_app. split; [exact H|].
  constructor; [apply trim_idem | constructor].
Qed.

Lemma open_chunk_le (s : string) : (Text.open_chunk s <= 1)%nat.
Proof. unfold Text.open_chunk. destruct (JS.truthy s); lia. Qed.

Lemma chunk_fold_count (maxChunkSize : nat) (paras : list string) :
  forall chunks currentChunk,
    let st := fold_left (chunk_step maxChunkSize) paras (chunks, currentChunk) in
    (length (fst st) + Text.open_chunk (snd st)
     <= length chunks + Text.open_chunk currentChunk + length paras)%nat.
Proof.
  induction paras as [|p paras IH]; intros chunks cur; cbn zeta.
  - cbn. lia.
  - cbn [fold_left length].
    assert (Hstep :
      (length (fst (chunk_step maxChunkSize (chunks, cur) p))
       + Text.open_chunk (snd (chunk_step maxChunkSize (chunks, cur) p))
       <= length chunks + Text.open_chunk cur + 1)%nat).
    { unfold chunk_step.
      destruct (Nat.ltb maxChunkSize _); destruct cur as [|a s];
        cbn [andb JS.truthy fst snd Text.open_chunk].
      - pose proof (open_chunk_le ("" +:+ "" +:+ p)). lia.
      - rewrite length_app. cbn [length].
        pose proof (open_chunk_le p). lia.
      - pose proof (open_chunk_le ("" +:+ "" +:+ p)). lia.
      - pose proof (open_chunk_le (String a s +:+ paragraph_break +:+ p)). lia. }
    destruct (chunk_step maxChunkSize (chunks, cur) p) as [chunks' cur'].
    cbn [fst snd] in Hstep. specialize (IH chunks' cur'). cbn zeta in IH. lia.
Qed.

(** X5.  Chunking never makes more chunks than the text has paragraphs. *)
Theorem chunkText_at_most_one_chunk_per_paragraph
    (text : string) (maxChunkSize : nat) :
  (length (chunkText text maxChunkSize)
   <= length (JS.split_paragraphs text))%nat.
Proof.
  unfold chunkText.
  pose proof (chunk_fold_count maxChunkSize (JS.split_paragraphs text) [] "")
    as H. cbn zeta in H.
  destruct (fold_left _ _ _) as [chunks cur]. cbn [fst snd length Text.open_chunk JS.truthy] in H.
  destruct (JS.truthy (JS.trim cur)) eqn:E.
  - rewrite length_app. cbn [length].
    assert (JS.truthy cur = true).
    { destruct cur; [discriminate E | reflexivity]. }
    unfold Text.open_chunk in H. rewrite H0 in H. lia.
  - lia.
Qed.

End ChunkingMore.

(** ** Paragraphs *)

Section Paragraphs.

Import Worker Examples.

Lemma is_nl_eqb (c : ascii) : JS.is_nl c = Ascii.eqb c "010".
Proof. destruct c as [[] [] [] [] [] [] [] []]; reflexivity. Qed.

(** A paragraph break at the start of a string. *)
Lemma starts_break (c : ascii) (s : string) :
  JS.starts false (String c s) paragraph_break = JS.is_nl c && JS.starts_nl s.
Proof.
  unfold paragraph_break. cbn [JS.starts JS.char_eq]. rewrite is_nl_eqb.
  destruct s as [|d s]; cbn [JS.starts JS.starts_nl JS.char_eq].
  - reflexivity.
  - now rewrite is_nl_eqb, starts_empty, andb_true_r.
Qed.

(** Without a blank line the text is a single paragraph. *)
Lemma split_go_no_blank_line (s cur : string) :
  Text.no_blank_line s = true ->
  JS.split_go false cur s = [cur +:+ s].
Proof.
  unfold Text.no_blank_line, JS.includes. revert cur.
  induction s as [|c s IH]; intros cur H.
  - cbn. now rewrite append_empty_r.
  - apply negb_true_iff in H. cbn [JS.occurs] in H.
    apply orb_false_iff in H as [Hs Ho]. rewrite starts_break in Hs.
    cbn [JS.split_go].
    assert (Hgo : JS.split_go false (cur +:+ String c "") s
                  = [cur +:+ String c s]).
    { rewrite IH by now apply negb_true_iff.
      now rewrite append_assoc, append_cons, append_empty_l. }
    destruct (JS.is_nl c); [|exact Hgo].
    cbn [andb] in Hs. now rewrite Hs.
Qed.

(** X6.  A text without a blank line is never split, whatever its length
    and the limit: it is one chunk, the trimmed text, or no chunk at all
    when the text is blank. *)
Theorem chunkText_without_blank_line (text : string) (maxChunkSize : nat) :
  Text.no_blank_line text = true ->
  chunkText text maxChunkSize =
    if JS.truthy (JS.trim text) then [JS.trim text] else [].
Proof.
  intros H. unfold chunkText, JS.split_paragraphs.
  rewrite (split_go_no_blank_line text "" H), append_empty_l.
  cbn [fold_left chunk_step JS.truthy]. rewrite andb_false_r.
  now rewrite !append_empty_l.
Qed.

Lemma all_space_append (s t : string) :
  Text.all_space (s +:+ t) = Text.all_space s && Text.all_space t.
Proof.
  induction s as [|c s IH]; [reflexivity|].
  rewrite append_cons. cbn [Text.all_space]. now rewrite IH, andb_assoc.
Qed.

Lemma trim_all_space (s : string) : Text.all_space s = true -> JS.trim s = "".
Proof.
  intros H. unfold JS.trim.
  assert (E : JS.trimStart s = "").
  { induction s as [|c s IH]; [reflexivity|].
    cbn [Text.all_space] in H. apply andb_true_iff in H as [Hc Hs].
    cbn [JS.trimStart]. rewrite Hc. auto. }
  now rewrite E.
Qed.

Lemma is_nl_space (c : ascii) : JS.is_nl c = true -> JS.is_space c = true.
Proof.
  rewrite is_nl_eqb. intros H. apply Ascii.eqb_eq in H. now subst.
Qed.

(** The paragraphs of a blank text are blank. *)
Lemma split_go_all_space (s : string) :
  forall in_sep cur,
    Text.all_space cur = true -> Text.all_space s = true ->
    Forall (fun p => Text.all_space p = true) (JS.split_go in_sep cur s).
Proof.
  induction s as [|c s IH]; intros in_sep cur Hcur Hs.
  - cbn. constructor; [exact Hcur | constructor].
  - cbn [Text.all_space] in Hs. apply andb_true_iff in Hs as [Hc Hs].
    assert (Hnext : Text.all_space (cur +:+ String c "") = true).
    { rewrite all_space_append, Hcur. cbn. now rewrite Hc. }
    cbn [JS.split_go].
    destruct (JS.is_nl c); [|now apply IH].
    destruct in_sep; [now apply IH|].
    destruct (JS.starts_nl s); [|now apply IH].
    constructor; [exact Hcur | now apply IH].
Qed.

(** The paragraphs and a break after each fit in the text, two characters
    apart; inside a separator a line feed that follows is not counted. *)
Lemma split_go_weight (s : string) :
  forall in_sep cur,
    (Text.weight (JS.split_go in_sep cur s)
     + (if in_sep && JS.starts_nl s then 1 else 0)
     <= JS.len cur + JS.len s + 2)%nat.
Proof.
  induction s as [|c s IH]; intros in_sep cur.
  - cbn. rewrite andb_false_r. unfold JS.len. cbn. lia.
  - cbn [JS.split_go JS.starts_nl].
    assert (Hlen : JS.len (String c s) = S (JS.len s)) by reflexivity.
    assert (Hcur : JS.len (cur +:+ String c "") = S (JS.len cur)).
    { rewrite len_append. cbn. lia. }
    destruct (JS.is_nl c) eqn:Hc.
    + destruct in_sep; cbn [andb].
      * specialize (IH true cur). lia.
      * destruct (JS.starts_nl s) eqn:Hs.
        -- cbn [Text.weight]. specialize (IH true "").
           cbn [andb] in IH. change (JS.len "") with 0%nat in IH. lia.
        -- specialize (IH false (cur +:+ String c "")). cbn [andb] in IH. lia.
    + rewrite andb_false_r. specialize (IH false (cur +:+ String c "")).
      cbn [andb] in IH. lia.
Qed.

(** While what is left fits under the limit, the loop closes no chunk and
    the chunk being filled stays blank. *)
Lemma chunk_fold_blank (maxChunkSize : nat) (paras : list string) :
  forall currentChunk,
    Forall (fun p => Text.all_space p = true) paras ->
    Text.all_space currentChunk = true ->
    (JS.len currentChunk + Text.weight paras <= maxChunkSize + 2)%nat ->
    exists cur,
      fold_left (chunk_step maxChunkSize) paras ([], currentChunk) = ([], cur)
      /\ Text.all_space cur = true.
Proof.
  induction paras as [|p paras IH]; intros cur Hps Hcur Hw.
  - exists cur. now split.
  - apply Forall_cons in Hps as [Hp Hps]. cbn [Text.weight] in Hw.
    cbn [fold_left]. unfold chunk_step at 2.
    destruct (Nat.ltb_spec maxChunkSize (JS.len cur + JS.len p)) as [Hlt|Hge];
      [lia|]. cbn [andb].
    apply IH; [exact Hps| |].
    + rewrite !all_space_append, Hcur, Hp.
      now destruct (JS.truthy cur).
    + rewrite !len_append.
      destruct (JS.truthy cur);
        [change (JS.len paragraph_break) with 2%nat
        |change (JS.len "") with 0%nat]; lia.
Qed.

(** X7.  A blank text (white space only) no longer than the limit gives
    no chunk at all. *)
Theorem chunkText_blank_text_gives_no_chunk
    (text : string) (maxChunkSize : nat) :
  Text.all_space text = true -> (JS.len text <= maxChunkSize)%nat ->
  chunkText text maxChunkSize = [].
Proof.
  intros Hs Hlen. unfold chunkText, JS.split_paragraphs.
  destruct (chunk_fold_blank maxChunkSize (JS.split_go false "" text) "")
    as (cur & -> & Hcur).
  - now apply split_go_all_space.
  - reflexivity.
  - pose proof (split_go_weight text false "") as H. cbn [andb] in H.
    change (JS.len "") with 0%nat in *. lia.
  - now rewrite (trim_all_space cur Hcur).
Qed.

End Paragraphs.

Section ChunkingExamples.

Import Worker Examples.

(** A long line is one chunk. *)
Lemma chunkText_without_blank_line_witness :
  Text.no_blank_line (JS.repeat_char "a" 600) = true
  /\ chunkText (JS.repeat_char "a" 600) 500 = [JS.repeat_char "a" 600].
Proof.
  assert (H : Text.no_blank_line (JS.repeat_char "a" 600) = true)
    by (vm_compute; reflexivity).
  split; [exact H|].
  rewrite (chunkText_without_blank_line (JS.repeat_char "a" 600) 500 H).
  vm_compute. reflexivity.
Defined.

(** Three spaces between two blank lines. *)
Lemma chunkText_blank_text_witness :
  Text.all_space (paragraph_break +:+ "   " +:+ paragraph_break) = true
  /\ chunkText (paragraph_break +:+ "   " +:+ paragraph_break) 500 = [].
Proof.
  split; [reflexivity|].
  apply chunkText_blank_text_gives_no_chunk; [reflexivity|].
  vm_compute. lia.
Defined.

End ChunkingExamples.

(** ** Long chunks *)

Section LongChunks.

Import Worker.

(** The loop keeps apart the chunks within the limit plus a paragraph
    break and the chunks that are one paragraph. *)
Lemma chunk_fold_single (maxChunkSize : nat) (all paras : list string) :
  (forall p, In p paras -> In p all) ->
  forall chunks currentChunk,
    Forall (fun c => (JS.len c <= maxChunkSize + 2)%nat
                     \/ exists p, In p all /\ c = JS.trim p) chunks ->
    ((JS.len currentChunk <= maxChunkSize + 2)%nat \/ In currentChunk all) ->
    let st := fold_left (chunk_step maxChunkSize) paras (chunks, currentChunk) in
    Forall (fun c => (JS.len c <= maxChunkSize + 2)%nat
                     \/ exists p, In p all /\ c = JS.trim p) (fst st)
    /\ ((JS.len (snd st) <= maxChunkSize + 2)%nat \/ In (snd st) all).
Proof.
  induction paras as [|para paras IH]; intros Hin chunks cur Hc Hcur; cbn zeta.
  - cbn. auto.
  - cbn [fold_left].
    assert (Hpara : In para all) by (apply Hin; now left).
    assert (Hrest : forall p, In p paras -> In p all)
      by (intros p Hp; apply Hin; now right).
    assert (Hst :
      Forall (fun c => (JS.len c <= maxChunkSize + 2)%nat
                       \/ exists p, In p all /\ c = JS.trim p)
        (fst (chunk_step maxChunkSize (chunks, cur) para))
      /\ ((JS.len (snd (chunk_step maxChunkSize (chunks, cur) para))
           <= maxChunkSize + 2)%nat
          \/ In (snd (chunk_step maxChunkSize (chunks, cur) para)) all)).
    { unfold chunk_step.
      destruct (Nat.ltb_spec maxChunkSize (JS.len cur + JS.len para))
        as [Hlt|Hge]; destruct cur as [|a s]; cbn [JS.truthy andb fst snd].
      - rewrite !append_empty_l. auto.
      - split; [|auto].
        apply Forall_app. split; [exact Hc|].
        constructor; [|constructor].
        destruct Hcur as [Hcur|Hcur].
        + left. pose proof (trim_length (String a s)). lia.
        + right. now exists (String a s).
      - rewrite !append_empty_l. auto.
      - split; [exact Hc|]. left. rewrite !len_append.
        change (JS.len paragraph_break) with 2%nat. lia. }
    destruct (chunk_step maxChunkSize (chunks, cur) para) as [chunks' cur'].
    destruct Hst as [Hs1 Hs2]. now apply IH.
Qed.

(** X8.  A chunk longer than the limit plus the two characters of a
    paragraph break is a single paragraph of the text, trimmed. *)
Theorem chunkText_long_chunks_are_single_paragraphs
    (text : string) (maxChunkSize : nat) :
  Forall (fun c => (JS.len c <= maxChunkSize + 2)%nat
                   \/ exists p, In p (JS.split_paragraphs text)
                                /\ c = JS.trim p)
    (chunkText text maxChunkSize).
Proof.
  unfold chunkText.
  destruct (chunk_fold_single maxChunkSize (JS.split_paragraphs text)
              (JS.split_paragraphs text) (fun p H => H) [] "") as [H1 H2].
  { constructor. }
  { left. cbn. lia. }
  destruct (fold_left _ _ _) as [chunks cur]. cbn [fst snd] in *.
  destruct (JS.truthy (JS.trim cur)); [|exact H1].
  apply Forall_app. split; [exact H1|].
  constructor; [|constructor].
  destruct H2 as [H2|H2].
  - left. pose proof (trim_length cur). lia.
  - right. now exists cur.
Qed.

End LongChunks.

(** ** The handlers: refusals, frames and what is written *)

Section Handlers.

Import Worker Examples.

Variable env : Env.

Lemma world_eta (w : World) :
  {| store := store w; trace := trace w; ticks := ticks w |} = w.
Proof. now destruct w. Qed.

Lemma embedded_app (t1 t2 : list Call) :
  Obs.embedded (t1 ++ t2) = Obs.embedded t1 ++ Obs.embedded t2.
Proof.
  induction t1 as [|c t1 IH]; [reflexivity|].
  destruct c; cbn; now rewrite IH.
Qed.

(** X9.  [/query] reads only: whatever the request, the index, the
    upserts made so far and the clock are as before, and the handler embeds
    at most the query. *)
Theorem query_never_writes (req : QueryRequest.t) (w : World) :
  store (snd (handle_query env req w)) = store w
  /\ ticks (snd (handle_query env req w)) = ticks w
  /\ upserts (trace (snd (handle_query env req w))) = upserts (trace w)
  /\ (length (Obs.embedded (trace (snd (handle_query env req w))))
      <= S (length (Obs.embedded (trace w))))%nat.
Proof.
  destruct (JS.truthy (QueryRequest.query req)) eqn:Hq.
  - rewrite (handle_query_run env req w Hq). cbn [snd store ticks trace].
    rewrite upserts_app. cbn [upserts]. rewrite app_nil_r.
    repeat split.
    rewrite embedded_app, length_app. cbn. lia.
  - unfold handle_query. rewrite Hq. cbn. repeat split. lia.
Qed.

(** The stored text of [/capture] is the start of the content. *)
Lemma slice0_prefix (n : nat) (s : string) : Text.is_prefix (JS.slice0 n s) s.
Proof.
  unfold Text.is_prefix, JS.slice0. revert s.
  induction n as [|n IH]; intros [|c s]; cbn [substring].
  - now exists "".
  - now exists (String c s).
  - now exists "".
  - destruct (IH s) as [r Hr]. exists r.
    rewrite append_cons. now rewrite <- Hr.
Qed.

Lemma slice0_len (n : nat) (s : string) :
  JS.len (JS.slice0 n s) = Nat.min n (JS.len s).
Proof.
  unfold JS.slice0, JS.len. revert s.
  induction n as [|n IH]; intros [|c s]; cbn; try reflexivity.
  now rewrite IH.
Qed.

(** X10.  A turn that [/capture] stores becomes exactly one vector, alone
    in its upsert: its id hashes the whole content, its stored text is the
    first 1000 characters of the content (the content itself when it is
    no longer), its source is [auto-capture] and its position 0. *)
Theorem capture_writes_one_vector (req : CaptureRequest.t) (w : World) :
  JS.truthy (CaptureRequest.agent req) = true ->
  JS.truthy (CaptureRequest.content req) = true ->
  capture_type req <> "context" ->
  exists v,
    upserts (trace (snd (handle_capture env req w))) = upserts (trace w) ++ [[v]]
    /\ store (snd (handle_capture env req w)) !! id v = Some v
    /\ id v = generateId (CaptureRequest.agent req) "capture"
                (CaptureRequest.content req)
    /\ Text.is_prefix (raw_text (metadata v)) (CaptureRequest.content req)
    /\ JS.len (raw_text (metadata v))
       = Nat.min 1000 (JS.len (CaptureRequest.content req))
    /\ type (metadata v) = capture_type req
    /\ source_file (metadata v) = "auto-capture"
    /\ chunk_index (metadata v) = 0%Z.
Proof.
  intros Ha Hc Ht. rewrite (handle_capture_run env req w Ha Hc Ht).
  cbn zeta. eexists. cbn [snd trace store].
  split; [now rewrite upserts_app|].
  split; [apply lookup_insert_eq|].
  split; [reflexivity|].
  split; [apply slice0_prefix|].
  split; [apply slice0_len|].
  repeat split.
Qed.

(** X11.  A turn whose type is [context] is not stored: [/capture]
    answers [captured: false] with status 200 and calls no binding.  This
    is so when the caller's classification is [context], whatever words
    the content holds. *)
Theorem capture_context_is_not_stored (req : CaptureRequest.t) (w : World) :
  JS.truthy (CaptureRequest.agent req) = true ->
  JS.truthy (CaptureRequest.content req) = true ->
  (CaptureRequest.classification req = Some "context"
   \/ capture_type req = "context") ->
  handle_capture env req w
  = ({| status := 200; body := NotCaptured "Not a capture-worthy turn" |}, w).
Proof.
  intros Ha Hc H.
  assert (Ht : capture_type req = "context").
  { destruct H as [H|H]; [|exact H]. now apply capture_type_passthrough. }
  unfold handle_capture. rewrite Ha, Hc, Ht. reflexivity.
Qed.






End Handlers.

(** ** [/index-file] and the frame of every request *)

Section Frames.

Import Worker Examples.

Variable env : Env.

Lemma fold_upsert_concat (batches : list (list VectorizeVector))
    (s : gmap string VectorizeVector) :
  fold_left upsert_store batches s = upsert_store s (concat batches).
Proof.
  revert s. induction batches as [|b r IH]; intros s; [reflexivity|].
  cbn [fold_left concat]. rewrite IH. unfold upsert_store.
  now rewrite fold_left_app.
Qed.

(** The run of [/index-file] on a file that its bucket holds. *)
Lemma handle_index_file_run (req : IndexFileRequest.t) (bucket : Bucket)
    (text : string) (w : World) :
  JS.truthy (IndexFileRequest.file req) = true ->
  bucket_of (IndexFileRequest.agent req) = Some bucket ->
  R2 env bucket (IndexFileRequest.file req) = Some text ->
  let chunks := chunkText text defaultChunkSize in
  let vectors := built env (file_vector req) 0 (ticks w) chunks in
  exists batches : list (list VectorizeVector),
    handle_index_file env req w =
      (json (IndexFileBody (IndexFileRequest.file req) (length chunks)
               (length chunks)),
       {| store := upsert_store (store w) vectors;
          trace := trace w ++ [R2Get bucket (IndexFileRequest.file req)]
                   ++ map AiRun chunks ++ map VectorizeUpsert batches;
          ticks := ticks w + length chunks |})
    /\ Forall (fun b => (0 < length b <= 100)%nat) batches
    /\ concat batches = vectors.
Proof.
  intros Hf Hb Hr. cbn zeta.
  assert (Ha : JS.truthy (IndexFileRequest.agent req) = true).
  { unfold bucket_of in Hb.
    destruct (IndexFileRequest.agent req); [discriminate|reflexivity]. }
  set (chunks := chunkText text defaultChunkSize).
  set (vectors := built env (file_vector req) 0 (ticks w) chunks).
  set (w1 := {| store := store w;
                trace := (trace w ++ [R2Get bucket (IndexFileRequest.file req)])
                         ++ map AiRun chunks;
                ticks := ticks w + length chunks |}).
  destruct (batch_loop_run vectors (length vectors) 0 0 w1)
    as (batches & Hrun & Hall & Hcat); [lia|].
  change (skipn 0 vectors) with vectors in Hrun, Hcat.
  cbn [Nat.add] in Hrun.
  exists batches. split; [|split; assumption].
  unfold handle_index_file. rewrite Ha, Hf, Hb. cbn [negb orb].
  unfold bind at 1. unfold r2_get, log, bind at 1, ret at 1. rewrite Hr.
  cbn [fst snd store trace ticks].
  unfold bind at 1. rewrite embed_chunks_run. cbn [store trace ticks].
  fold chunks vectors w1.
  unfold bind, upsert_batches. rewrite Hrun. unfold ret, w1.
  cbn [store trace ticks].
  rewrite fold_upsert_concat, Hcat.
  assert (Hn : length vectors = length chunks) by apply built_length.
  rewrite Hn. now rewrite <- !app_assoc.
Qed.

(** X13.  [/index-file] on a file that the bucket of the agent holds:
    the file is read once, every chunk is embedded once, then the vectors
    are upserted in order in batches that are never empty and never hold
    more than 100; every chunk is stored as it is under the type [context],
    and the answer reports as many indexed as chunks. *)
Theorem index_file_upserts_in_batches (req : IndexFileRequest.t)
    (bucket : Bucket) (text : string) (w : World) :
  JS.truthy (IndexFileRequest.file req) = true ->
  bucket_of (IndexFileRequest.agent req) = Some bucket ->
  R2 env bucket (IndexFileRequest.file req) = Some text ->
  let chunks := chunkText text defaultChunkSize in
  exists batches : list (list VectorizeVector),
    fst (handle_index_file env req w)
    = {| status := 200;
         body := IndexFileBody (IndexFileRequest.file req) (length chunks)
                   (length chunks) |}
    /\ trace (snd (handle_index_file env req w))
       = trace w ++ [R2Get bucket (IndexFileRequest.file req)]
         ++ map AiRun chunks ++ map VectorizeUpsert batches
    /\ Forall (fun b => (0 < length b <= 100)%nat) batches
    /\ map (fun v => raw_text (metadata v)) (concat batches) = chunks
    /\ Forall (fun v => type (metadata v) = "context") (concat batches)
    /\ store (snd (handle_index_file env req w))
       = upsert_store (store w) (concat batches).
Proof.
  intros Hf Hb Hr. cbn zeta.
  destruct (handle_index_file_run req bucket text w Hf Hb Hr)
    as (batches & Hrun & Hall & Hcat).
  exists batches. rewrite Hrun, Hcat. cbn [fst snd trace store].
  repeat split; try assumption.
  - now apply built_raw_text.
  - apply built_file_types.
Qed.

(** X14.  [/index-file] serves two agents only: for an agent that is
    neither [dev] nor [flo] it answers 400 and calls no binding. *)
Theorem index_file_unknown_agent (req : IndexFileRequest.t) (w : World) :
  JS.truthy (IndexFileRequest.agent req) = true ->
  JS.truthy (IndexFileRequest.file req) = true ->
  IndexFileRequest.agent req <> "dev" ->
  IndexFileRequest.agent req <> "flo" ->
  handle_index_file env req w
  = ({| status := 400;
        body := ErrorBody ("Unknown agent: " +:+ IndexFileRequest.agent req) |},
     w).
Proof.
  intros Ha Hf Hd Hfl. unfold handle_index_file, bucket_of.
  apply String.eqb_neq in Hd, Hfl. now rewrite Ha, Hf, Hd, Hfl.
Qed.

Lemma handle_index_file_not_found (req : IndexFileRequest.t) (bucket : Bucket)
    (w : World) :
  JS.truthy (IndexFileRequest.file req) = true ->
  bucket_of (IndexFileRequest.agent req) = Some bucket ->
  R2 env bucket (IndexFileRequest.file req) = None ->
  handle_index_file env req w
  = ({| status := 404;
        body := ErrorBody ("File not found: " +:+ IndexFileRequest.file req) |},
     {| store := store w;
        trace := trace w ++ [R2Get bucket (IndexFileRequest.file req)];
        ticks := ticks w |}).
Proof.
  intros Hf Hb Hr.
  assert (Ha : JS.truthy (IndexFileRequest.agent req) = true).
  { unfold bucket_of in Hb.
    destruct (IndexFileRequest.agent req); [discriminate|reflexivity]. }
  unfold handle_index_file. rewrite Ha, Hf, Hb. cbn [negb orb].
  unfold bind, r2_get, log, ret. now rewrite Hr.
Qed.

(** X15.  [/index-file] on a file that the bucket does not hold answers
    404 after the one read of the bucket: nothing is chunked, embedded or
    written. *)
Theorem index_file_missing_file (req : IndexFileRequest.t) (bucket : Bucket)
    (w : World) :
  JS.truthy (IndexFileRequest.file req) = true ->
  bucket_of (IndexFileRequest.agent req) = Some bucket ->
  R2 env bucket (IndexFileRequest.file req) = None ->
  status (fst (handle_index_file env req w)) = 404
  /\ body (fst (handle_index_file env req w))
     = ErrorBody ("File not found: " +:+ IndexFileRequest.file req)
  /\ store (snd (handle_index_file env req w)) = store w
  /\ ticks (snd (handle_index_file env req w)) = ticks w
  /\ trace (snd (handle_index_file env req w))
     = trace w ++ [R2Get bucket (IndexFileRequest.file req)].
Proof.
  intros Hf Hb Hr. rewrite (handle_index_file_not_found req bucket w Hf Hb Hr).
  repeat split.
Qed.

Lemma frames_same (r : Response) (w : World) : Obs.frames w r w.
Proof.
  exists []. repeat split. cbn. now rewrite app_nil_r.
Qed.

Lemma frames_query (req : QueryRequest.t) (w : World) :
  Obs.frames w (fst (handle_query env req w)) (snd (handle_query env req w)).
Proof.
  destruct (JS.truthy (QueryRequest.query req)) eqn:Hq.
  - rewrite (handle_query_run env req w Hq). cbn [fst snd].
    exists []. cbn [store trace upsert_store fold_left]. split; [reflexivity|].
    split; [|discriminate].
    rewrite written_app. cbn. now rewrite !app_nil_r.
  - unfold handle_query. rewrite Hq. apply frames_same.
Qed.

Lemma frames_index (req : IndexRequest.t) (w : World) :
  Obs.frames w (fst (handle_index env req w)) (snd (handle_index env req w)).
Proof.
  destruct (valid_index_dec req) as [Hv|Hn].
  - rewrite (handle_index_run env req w Hv). cbn [fst snd].
    eexists. cbn [store trace]. split; [reflexivity|].
    split; [|discriminate].
    unfold written. rewrite !upserts_app, upserts_ai_run. cbn.
    now rewrite concat_app; cbn; rewrite app_nil_r.
  - rewrite (handle_index_refused env req w Hn). apply frames_same.
Qed.

Lemma frames_capture (req : CaptureRequest.t) (w : World) :
  Obs.frames w (fst (handle_capture env req w)) (snd (handle_capture env req w)).
Proof.
  destruct (JS.truthy (CaptureRequest.agent req)) eqn:Ha;
    [destruct (JS.truthy (CaptureRequest.content req)) eqn:Hc|].
  - destruct (string_dec (capture_type req) "context") as [Ht|Ht].
    + unfold handle_capture. rewrite Ha, Hc, Ht. apply frames_same.
    + rewrite (handle_capture_run env req w Ha Hc Ht). cbn [fst snd].
      eexists [_]. cbn [store trace upsert_store fold_left].
      split; [reflexivity|]. split; [|discriminate].
      now rewrite written_app.
  - unfold handle_capture. rewrite Ha, Hc. apply frames_same.
  - unfold handle_capture. rewrite Ha. apply frames_same.
Qed.

Lemma frames_index_file (req : IndexFileRequest.t) (w : World) :
  Obs.frames w (fst (handle_index_file env req w))
    (snd (handle_index_file env req w)).
Proof.
  destruct (JS.truthy (IndexFileRequest.agent req)) eqn:Ha;
    [destruct (JS.truthy (IndexFileRequest.file req)) eqn:Hf|].
  - destruct (bucket_of (IndexFileRequest.agent req)) as [bucket|] eqn:Hb.
    + destruct (R2 env bucket (IndexFileRequest.file req)) as [text|] eqn:Hr.
      * destruct (handle_index_file_run req bucket text w Hf Hb Hr)
          as (batches & Hrun & _ & Hcat).
        rewrite Hrun. cbn [fst snd]. eexists. cbn [store trace].
        split; [reflexivity|]. split; [|discriminate].
        unfold written. rewrite !upserts_app, upserts_ai_run, upserts_batches.
        cbn. now rewrite concat_app, Hcat.
      * rewrite (handle_index_file_not_found req bucket w Hf Hb Hr).
        cbn [fst snd]. exists []. cbn [store trace upsert_store fold_left].
        split; [reflexivity|]. split; [|discriminate].
        rewrite written_app. cbn. now rewrite app_nil_r.
    + unfold handle_index_file. rewrite Ha, Hf, Hb. apply frames_same.
  - unfold handle_index_file. rewrite Ha, Hf. apply frames_same.
  - unfold handle_index_file. rewrite Ha. apply frames_same.
Qed.

Lemma frames_stats (w : World) :
  Obs.frames w (fst (handle_stats env w)) (snd (handle_stats env w)).
Proof.
  exists []. unfold handle_stats, bind, vectorize_query, ret.
  cbn [fst snd store trace upsert_store fold_left].
  split; [reflexivity|]. split; [|discriminate].
  rewrite written_app. cbn [written upserts app concat].
  now rewrite !app_nil_r.
Qed.

Lemma frames_health (w : World) :
  Obs.frames w (fst (handle_health env w)) (snd (handle_health env w)).
Proof.
  exists []. cbn. split; [reflexivity|]. split; [|discriminate].
  now rewrite app_nil_r.
Qed.

Lemma frames_fetch (request : Request) (w : World) :
  Obs.frames w (fst (fetch env request w)) (snd (fetch env request w)).
Proof.
  destruct request; cbn [fetch].
  - apply frames_query.
  - apply frames_index.
  - apply frames_capture.
  - apply frames_index_file.
  - apply frames_same.
  - apply frames_same.
  - apply frames_stats.
  - apply frames_health.
Qed.

(** X16.  No request removes or alters a record it does not upsert,
    whatever its route ([OPTIONS], the four [POST] routes, [GET /stats],
    [/health], [/] and the answer 404): the index after a request is the
    index before with the upserted vectors written over it, so every id
    stays in the index, and a record whose id is not among the upserted
    ones is as before. *)
Theorem fetch_changes_only_what_it_upserts (request : Request) (w : World) :
  exists vs : list VectorizeVector,
    written (trace (snd (fetch env request w))) = written (trace w) ++ vs
    /\ dom (store w) ⊆ dom (store (snd (fetch env request w)))
    /\ (forall i, ~ In i (map id vs) ->
          store (snd (fetch env request w)) !! i = store w !! i)
    /\ (forall i, In i (map id vs) ->
          exists v, store (snd (fetch env request w)) !! i = Some v
                    /\ In v vs /\ id v = i).
Proof.
  destruct (frames_fetch request w) as (vs & Hs & Hw & _).
  exists vs. rewrite Hs. split; [exact Hw|]. split; [|split].
  - rewrite upsert_store_dom. apply union_subseteq_l.
  - intros i Hi. now apply upsert_store_other.
  - intros i Hi. now apply upsert_store_lookup.
Qed.

(** X17.  A request that lacks a required field is answered 400, and on
    every route ([OPTIONS], the four [POST] routes, [GET /stats],
    [/health], [/] and the answer 404) an answer 400 means that nothing
    happened: no binding was called and the index, the trace and the clock
    are as before. *)
Theorem fetch_refusal_has_no_effect (request : Request) (w : World) :
  (Obs.missing_field request = true ->
   status (fst (fetch env request w)) = 400)
  /\ (status (fst (fetch env request w)) = 400 ->
      snd (fetch env request w) = w).
Proof.
  split.
  - destruct request as [b|b|b|b| | | |]; cbn [Obs.missing_field fetch];
      intros H; try discriminate.
    + unfold handle_query. now rewrite H.
    + unfold handle_index. now rewrite H.
    + unfold handle_capture. now rewrite H.
    + unfold handle_index_file. now rewrite H.
  - destruct (frames_fetch request w) as (vs & _ & _ & H). exact H.
Qed.

End Frames.

(** * The plugin *)

(** ** Matching *)

Section Matching.

Import Rx.

Lemma run_word (ic : bool) (w s : string) :
  run ic (word w) s (fun _ => true) = JS.starts ic s w.
Proof.
  revert s. induction w as [|a w IH]; intros s.
  - cbn. now rewrite starts_empty.
  - cbn [word run]. destruct s as [|c s]; [reflexivity|].
    cbn [JS.starts]. now rewrite IH.
Qed.

Lemma search_word (ic : bool) (w s : string) :
  search ic (word w) s = JS.occurs ic s w.
Proof.
  induction s as [|c s IH]; cbn [search JS.occurs]; rewrite run_word;
    [reflexivity | now rewrite IH].
Qed.

Lemma search_fail (ic : bool) (s : string) : search ic Fail s = false.
Proof. induction s as [|c s IH]; [reflexivity | exact IH]. Qed.

Lemma search_alt (ic : bool) (r1 r2 : re) (s : string) :
  search ic (Alt r1 r2) s = search ic r1 s || search ic r2 s.
Proof.
  induction s as [|c s IH]; cbn [search run].
  - now rewrite !orb_false_r.
  - rewrite IH.
    destruct (run ic r1 _ _), (run ic r2 _ _), (search ic r1 s),
      (search ic r2 s); reflexivity.
Qed.

Lemma search_any_of (ic : bool) (rs : list re) (s : string) :
  search ic (any_of rs) s = existsb (fun r => search ic r s) rs.
Proof.
  induction rs as [|r rs IH]; [apply search_fail|].
  cbn [any_of existsb]. destruct rs as [|r' rs'].
  - cbn. now rewrite orb_false_r.
  - now rewrite search_alt, IH.
Qed.

(** An alternation of words under [i] is found where one of the words
    occurs up to case. *)
Lemma test_words_i (ws : list string) (s : string) :
  test (Capture.words_i ws) s = existsb (JS.occurs true s) ws.
Proof.
  unfold test, Capture.words_i. cbn [pattern ignoreCase].
  rewrite search_any_of. induction ws as [|w ws IH]; [reflexivity|].
  cbn [map existsb]. now rewrite search_word, IH.
Qed.

Lemma canonicalize_lower (c : ascii) :
  JS.canonicalize (JS.lower_char c) = JS.canonicalize c.
Proof. destruct c as [[] [] [] [] [] [] [] []]; reflexivity. Qed.

(** Up to case, a word occurs in a text where it occurs in its lower
    case. *)
Lemma occurs_lower (s w : string) :
  JS.occurs true (JS.toLowerCase s) w = JS.occurs true s w.
Proof.
  assert (Hs : forall s w, JS.starts true (JS.toLowerCase s) w
                           = JS.starts true s w).
  { clear. induction s as [|c s IH]; intros [|a w]; cbn; try reflexivity.
    unfold JS.char_eq. now rewrite canonicalize_lower, IH. }
  induction s as [|c s IH].
  - reflexivity.
  - cbn [JS.toLowerCase JS.occurs]. rewrite IH.
    now rewrite <- (Hs (String c s) w).
Qed.

Lemma test_re_i_lower (ws : list string) (s : string) :
  JS.test (Plugin.re_i ws) (JS.toLowerCase s) = existsb (JS.occurs true s) ws.
Proof.
  unfold JS.test, Plugin.re_i. cbn [JS.alternatives JS.ignoreCase].
  induction ws as [|w ws IH]; [reflexivity|].
  cbn [existsb]. now rewrite occurs_lower, IH.
Qed.

End Matching.

(** ** What is worth capturing *)

Section ShouldCapture.

Import Capture.

Lemma starts_self (m b : string) : JS.starts false (m +:+ b) m = true.
Proof.
  induction m as [|c m IH]; [apply starts_empty|].
  rewrite append_cons. cbn [JS.starts JS.char_eq].
  now rewrite Ascii.eqb_refl, IH.
Qed.

Lemma includes_middle (a m b : string) : JS.includes (a +:+ m +:+ b) m = true.
Proof.
  unfold JS.includes. induction a as [|c a IH].
  - rewrite append_empty_l. destruct (m +:+ b) eqn:E; cbn [JS.occurs];
      rewrite <- E, starts_self; reflexivity.
  - rewrite append_cons. cbn [JS.occurs]. rewrite IH. apply orb_true_r.
Qed.

Lemma shouldCapture_marker (text : string) :
  JS.includes text memories_marker = true -> shouldCapture text = false.
Proof.
  intros H. unfold shouldCapture. rewrite H.
  now destruct (_ || _).
Qed.

(** The length gate. *)
Lemma shouldCapture_length (text : string) :
  shouldCapture text = true -> (10 <= JS.len text <= 500)%nat.
Proof.
  unfold shouldCapture.
  destruct (Nat.ltb_spec (JS.len text) 10) as [Hlo|Hlo],
    (Nat.ltb_spec 500 (JS.len text)) as [Hhi|Hhi];
    cbn [orb]; try discriminate.
  intros _. lia.
Qed.

(** X18.  Only a text of 10 to 500 characters that matches one of the
    triggers is worth capturing. *)
Theorem shouldCapture_bounds (text : string) :
  shouldCapture text = true ->
  (10 <= JS.len text <= 500)%nat /\ triggered text = true.
Proof.
  unfold shouldCapture.
  destruct (Nat.ltb_spec (JS.len text) 10) as [Hlo|Hlo],
    (Nat.ltb_spec 500 (JS.len text)) as [Hhi|Hhi];
    cbn [orb]; try discriminate.
  destruct (JS.includes text memories_marker); [discriminate|].
  destruct (_ && _); [discriminate|].
  destruct (_ && _); [discriminate|].
  destruct (_ <? _)%nat; [discriminate|].
  intros H. split; [lia | exact H].
Qed.

(** X19.  For a text whose code units are all below 256, which is what a
    [string] holds here: when [detectCategory] puts the text in another
    category than [context], the text matches a trigger.  The words of the
    four categories are among the words of the triggers, and on these code
    units matching the lower-cased text up to case is matching the text up
    to case.  The statement does not reach further: [toLowerCase] sends
    U+212A and U+0130 to the letters [k] and [i], which a pattern under
    [/i] without [u] does not do, so a text that spells a category word
    with one of them is categorised and matches no trigger. *)
Theorem category_words_are_triggers (text : string) :
  Plugin.detectCategory text <> Plugin.context -> triggered text = true.
Proof.
  intros H.
  assert (Hwords : forall ws us,
            JS.test (Plugin.re_i ws) (JS.toLowerCase text) = true ->
            (forall w, In w ws -> In w us) ->
            In (words_i us) MEMORY_TRIGGERS -> triggered text = true).
  { intros ws us Ht Hincl Hin. rewrite test_re_i_lower in Ht.
    apply existsb_exists in Ht as (w & Hw & Ho).
    apply existsb_exists. exists (words_i us). split; [exact Hin|].
    rewrite test_words_i. apply existsb_exists. exists w. auto. }
  unfold Plugin.detectCategory in H.
  destruct (JS.test Plugin.correction_re _) eqn:H1.
  { apply (Hwords _ ["actually"; "no,"; "that's wrong"; "correction"] H1);
      [auto | cbn; tauto]. }
  destruct (JS.test Plugin.preference_re _) eqn:H2.
  { unfold Plugin.preference_re in H2. rewrite test_re_i_lower in H2.
    apply existsb_exists in H2 as (w & Hw & Ho).
    apply existsb_exists. exists preference_trigger.
    split; [cbn; tauto|].
    unfold Rx.test, preference_trigger. cbn [Rx.pattern Rx.ignoreCase].
    rewrite search_any_of. apply existsb_exists.
    exists (Rx.word w). rewrite search_word. split; [|exact Ho].
    cbn in Hw. cbn. intuition (subst; auto). }
  destruct (JS.test Plugin.decision_re _) eqn:H3.
  { apply (Hwords _ ["decided"; "decision"; "will use"; "budeme"] H3);
      [cbn; tauto | cbn; tauto]. }
  destruct (JS.test Plugin.learning_re _) eqn:H4.
  { apply (Hwords _ ["learned"; "realized"; "discovered"] H4);
      [auto | cbn; tauto]. }
  now contradiction H.
Qed.

End ShouldCapture.

Section ShouldCaptureExamples.

Import Capture.

(** A request to remember an address. *)
Lemma shouldCapture_bounds_witness :
  shouldCapture "Remember that my email is bob@example.com" = true
  /\ (10 <= JS.len "Remember that my email is bob@example.com" <= 500)%nat.
Proof.
  assert (H : shouldCapture "Remember that my email is bob@example.com" = true)
    by (vm_compute; reflexivity).
  split; [exact H|]. exact (proj1 (shouldCapture_bounds _ H)).
Defined.

(** A preference. *)
Lemma category_words_witness :
  Plugin.detectCategory "I prefer tabs over spaces" <> Plugin.context
  /\ triggered "I prefer tabs over spaces" = true.
Proof.
  assert (H : Plugin.detectCategory "I prefer tabs over spaces"
              <> Plugin.context) by (vm_compute; discriminate).
  split; [exact H | exact (category_words_are_triggers _ H)].
Defined.

End ShouldCaptureExamples.

(** ** The client and the capture hook *)

Section CaptureHook.

Import Worker Hooks.

Variable env : Env.

Lemma type_name_truthy (c : Plugin.MemoryType) :
  JS.truthy (Plugin.type_name c) = true.
Proof. now destruct c. Qed.

Lemma type_name_context (c : Plugin.MemoryType) :
  Plugin.type_name c = "context" <-> c = Plugin.context.
Proof. destruct c; cbn; split; intros H; try discriminate; reflexivity. Qed.

Lemma type_name_closed (c : Plugin.MemoryType) :
  is_memory_type (Plugin.type_name c) = true.
Proof. now destruct c. Qed.

(** [detectCategory] answers one of five categories. *)
Lemma detectCategory_range (text : string) :
  In (Plugin.type_name (Plugin.detectCategory text))
    ["correction"; "preference"; "decision"; "learning"; "context"].
Proof.
  unfold Plugin.detectCategory.
  repeat destruct (JS.test _ _); cbn; tauto.
Qed.

Lemma slice0_all (n : nat) (s : string) :
  (JS.len s <= n)%nat -> JS.slice0 n s = s.
Proof.
  unfold JS.slice0, JS.len. revert s.
  induction n as [|n IH]; intros [|c s] H; cbn in *; try reflexivity; try lia.
  rewrite IH by lia. reflexivity.
Qed.

(** The request the hook sends for a text. *)
Lemma capture_type_of_category (agentId text : string) :
  capture_type
    {| CaptureRequest.agent := agentId;
       CaptureRequest.content := text;
       CaptureRequest.classification :=
         Some (Plugin.type_name (Plugin.detectCategory text)) |}
  = Plugin.type_name (Plugin.detectCategory text).
Proof.
  apply capture_type_passthrough; [reflexivity | apply type_name_truthy].
Qed.

Lemma client_capture_context (agentId text : string) (w : World) :
  JS.truthy agentId = true -> JS.truthy text = true ->
  Plugin.detectCategory text = Plugin.context ->
  client_capture env agentId text
    (Some (Plugin.type_name (Plugin.detectCategory text))) w
  = (Some {| status := 200; body := NotCaptured "Not a capture-worthy turn" |},
     w).
Proof.
  intros Ha Ht Hc. unfold client_capture, send, bind, ret. cbn [fetch].
  unfold handle_capture. cbn [CaptureRequest.agent CaptureRequest.content].
  rewrite Ha, Ht, capture_type_of_category, Hc. reflexivity.
Qed.

Lemma client_capture_stored (agentId text : string) (w : World) :
  JS.truthy agentId = true -> JS.truthy text = true ->
  Plugin.detectCategory text <> Plugin.context ->
  client_capture env agentId text
    (Some (Plugin.type_name (Plugin.detectCategory text))) w
  = (let req := {| CaptureRequest.agent := agentId;
                   CaptureRequest.content := text;
                   CaptureRequest.classification :=
                     Some (Plugin.type_name (Plugin.detectCategory text)) |} in
     let v := capture_vector req (Plugin.type_name (Plugin.detectCategory text))
                (EMBEDDING_MODEL env text) (clock env (ticks w)) in
     (Some {| status := 200;
              body := Captured (Plugin.type_name (Plugin.detectCategory text))
                        (id v) |},
      {| store := <[id v := v]> (store w);
         trace := trace w ++ [AiRun text; VectorizeUpsert [v]];
         ticks := S (ticks w) |})).
Proof.
  intros Ha Ht Hc. unfold client_capture, send, bind, ret. cbn [fetch].
  rewrite handle_capture_run; cbn [CaptureRequest.agent CaptureRequest.content];
    try assumption.
  - now rewrite capture_type_of_category.
  - rewrite capture_type_of_category. now rewrite type_name_context.
Qed.

Lemma client_capture_refused (agentId text : string) (c : option string)
    (w : World) :
  JS.truthy agentId = false ->
  client_capture env agentId text c w = (None, w).
Proof.
  intros Ha. unfold client_capture, send, bind, ret. cbn [fetch].
  unfold handle_capture. cbn [CaptureRequest.agent]. now rewrite Ha.
Qed.

(** X20.  What the plugin sends for a text worth capturing, the worker
    stores under the category [detectCategory] gave it: one vector whose
    type is one of the six and whose stored text is the whole text (a text
    worth capturing has at most 500 characters, under the cut at 1000).
    When the category is [context] the worker stores nothing and calls no
    binding, although the text matched a trigger. *)
Theorem plugin_capture_stores_the_detected_category
    (agentId text : string) (w : World) :
  JS.truthy agentId = true ->
  Capture.shouldCapture text = true ->
  let category := Plugin.detectCategory text in
  let run := client_capture env agentId text
               (Some (Plugin.type_name category)) w in
  (category = Plugin.context ->
   run = (Some {| status := 200;
                  body := NotCaptured "Not a capture-worthy turn" |}, w))
  /\ (category <> Plugin.context ->
      exists v,
        fst run = Some {| status := 200;
                          body := Captured (Plugin.type_name category) (id v) |}
        /\ upserts (trace (snd run)) = upserts (trace w) ++ [[v]]
        /\ id v = generateId agentId "capture" text
        /\ raw_text (metadata v) = text
        /\ type (metadata v) = Plugin.type_name category
        /\ is_memory_type (type (metadata v)) = true).
Proof.
  intros Ha Hs. cbn zeta.
  destruct (shouldCapture_length text Hs) as [Hlo Hhi].
  assert (Ht : JS.truthy text = true).
  { destruct text; [cbn in Hlo; lia | reflexivity]. }
  split; intros Hc.
  - now apply client_capture_context.
  - rewrite (client_capture_stored agentId text w Ha Ht Hc). cbn zeta.
    eexists. cbn [fst snd trace]. split; [reflexivity|].
    split; [now rewrite upserts_app|].
    split; [reflexivity|].
    split; [cbn; apply slice0_all; lia|].
    split; [reflexivity | apply type_name_closed].
Qed.

(** The loop of [agent_end] on texts that are worth capturing. *)
Lemma capture_loop_run (agentId : string) (texts : list string) :
  JS.truthy agentId = true ->
  Forall (fun t => Capture.shouldCapture t = true) texts ->
  forall (stored : nat) (w : World),
  exists vs : list VectorizeVector,
    fst (capture_loop env agentId texts stored w) = Stored (stored + length vs)
    /\ upserts (trace (snd (capture_loop env agentId texts stored w)))
       = upserts (trace w) ++ map (fun v => [v]) vs
    /\ map (fun v => raw_text (metadata v)) vs
       = List.filter
           (fun t => negb (String.eqb
                             (Plugin.type_name (Plugin.detectCategory t))
                             "context")) texts
    /\ Forall (fun v =>
                 type (metadata v)
                 = Plugin.type_name (Plugin.detectCategory (raw_text (metadata v)))
                 /\ agent (metadata v) = agentId
                 /\ id v = generateId agentId "capture" (raw_text (metadata v)))
         vs.
Proof.
  intros Ha Hall. induction Hall as [|text texts Hs Hall IH]; intros stored w.
  - exists []. cbn. rewrite Nat.add_0_r, app_nil_r. repeat split. constructor.
  - destruct (shouldCapture_length text Hs) as [Hlo Hhi].
    assert (Ht : JS.truthy text = true).
    { destruct text; [cbn in Hlo; lia | reflexivity]. }
    assert (Hdec : Plugin.detectCategory text = Plugin.context
                   \/ Plugin.detectCategory text <> Plugin.context).
    { destruct (Plugin.detectCategory text); auto; right; discriminate. }
    destruct Hdec as [Hc|Hc].
    + assert (E : capture_loop env agentId (text :: texts) stored w
                  = capture_loop env agentId texts stored w).
      { cbn [capture_loop]. unfold bind.
        now rewrite (client_capture_context agentId text w Ha Ht Hc). }
      assert (Hkeep : negb (Plugin.type_name (Plugin.detectCategory text)
                            =? "context")%string = false).
      { now rewrite Hc. }
      rewrite E. cbn [List.filter]. rewrite Hkeep.
      destruct (IH stored w) as (vs & Ho & Hu & Hr & Hf).
      exists vs. auto.
    + set (v := capture_vector
                  {| CaptureRequest.agent := agentId;
                     CaptureRequest.content := text;
                     CaptureRequest.classification :=
                       Some (Plugin.type_name (Plugin.detectCategory text)) |}
                  (Plugin.type_name (Plugin.detectCategory text))
                  (EMBEDDING_MODEL env text) (clock env (ticks w))).
      set (w1 := {| store := <[id v := v]> (store w);
                    trace := trace w ++ [AiRun text; VectorizeUpsert [v]];
                    ticks := S (ticks w) |}).
      assert (E : capture_loop env agentId (text :: texts) stored w
                  = capture_loop env agentId texts (S stored) w1).
      { cbn [capture_loop]. unfold bind.
        now rewrite (client_capture_stored agentId text w Ha Ht Hc). }
      assert (Hraw : raw_text (metadata v) = text).
      { unfold v. cbn. apply slice0_all. lia. }
      assert (Hkeep : negb (Plugin.type_name (Plugin.detectCategory text)
                            =? "context")%string = true).
      { apply negb_true_iff, String.eqb_neq. now rewrite type_name_context. }
      rewrite E. cbn [List.filter]. rewrite Hkeep.
      destruct (IH (S stored) w1) as (vs & Ho & Hu & Hr & Hf).
      exists (v :: vs). rewrite Ho, Hu. unfold w1. cbn [trace map length].
      split; [f_equal; lia|].
      split; [rewrite !upserts_app; cbn; now rewrite <- app_assoc|].
      split; [now rewrite Hraw, Hr|].
      constructor; [|exact Hf]. rewrite Hraw. repeat split.
Qed.

End CaptureHook.

(** ** The hooks *)

Section HookFacts.

Import Worker Hooks.

Variable env : Env.

Lemma in_firstn {A} (n : nat) (l : list A) (x : A) :
  In x (firstn n l) -> In x l.
Proof.
  intros H. rewrite <- (List.firstn_skipn n l). apply in_or_app. now left.
Qed.

Lemma toCapture_worth (ms : list Message) (n : nat) :
  Forall (fun t => Capture.shouldCapture t = true) (firstn n (toCapture ms)).
Proof.
  apply List.Forall_forall. intros t Ht.
  apply in_firstn in Ht. unfold toCapture in Ht.
  apply List.filter_In in Ht as [_ Ht].
  now apply andb_true_iff in Ht as [_ Ht].
Qed.

Lemma capture_loop_refused (agentId : string) (texts : list string)
    (stored : nat) (w : World) :
  JS.truthy agentId = false ->
  snd (capture_loop env agentId texts stored w) = w.
Proof.
  intros Ha. destruct texts as [|t texts]; [reflexivity|].
  cbn [capture_loop]. unfold bind.
  now rewrite (client_capture_refused env agentId t _ w Ha).
Qed.

(** X21.  The hook [agent_end] sends at most the first three texts worth
    capturing, in order, and the worker stores those whose category is not
    [context], each whole, under its category, one upsert per text.  A
    text of category [context] among the first three takes a place and is
    not stored.  Nothing is sent when the run failed or has no message,
    and nothing is stored when the agent has no name. *)
Theorem agent_end_stores_categorised_texts
    (agentId : string) (event : AgentEndEvent) (w : World) :
  (JS.truthy agentId = true ->
   exists vs : list VectorizeVector,
     upserts (trace (snd (agent_end env agentId event w)))
     = upserts (trace w) ++ map (fun v => [v]) vs
     /\ map (fun v => raw_text (metadata v)) vs
        = List.filter HookObs.categorised (HookObs.sent_texts event)
     /\ (length vs <= 3)%nat
     /\ (fst (agent_end env agentId event w) = Skipped
         \/ fst (agent_end env agentId event w) = Stored (length vs))
     /\ Forall (fun v =>
                  type (metadata v)
                  = Plugin.type_name
                      (Plugin.detectCategory (raw_text (metadata v)))
                  /\ agent (metadata v) = agentId
                  /\ id v = generateId agentId "capture" (raw_text (metadata v)))
          vs)
  /\ (JS.truthy agentId = false -> snd (agent_end env agentId event w) = w).
Proof.
  unfold agent_end, HookObs.sent_texts.
  destruct (messages event) as [ms|]; cycle 1.
  { split; [|reflexivity]. intros _. exists []. cbn.
    rewrite app_nil_r. repeat split; auto. }
  destruct (success event); cbn [negb orb]; cycle 1.
  { split; [|reflexivity]. intros _. exists []. cbn.
    rewrite app_nil_r. repeat split; auto. }
  destruct (Nat.eqb_spec (length ms) 0) as [Hz|Hz].
  { split; [|reflexivity]. intros _. exists [].
    destruct ms; [|discriminate]. cbn. rewrite app_nil_r. repeat split; auto. }
  destruct (toCapture ms) as [|t ts] eqn:Hts.
  { split; [|reflexivity]. intros _. exists []. cbn.
    rewrite app_nil_r. repeat split; auto. }
  split.
  - intros Ha.
    pose proof (toCapture_worth ms 3) as Hall. rewrite Hts in Hall.
    destruct (capture_loop_run env agentId (firstn 3 (t :: ts)) Ha Hall 0 w)
      as (vs & Ho & Hu & Hr & Hf).
    exists vs. split; [exact Hu|]. split; [exact Hr|].
    split; [|split; [right; exact Ho | exact Hf]].
    rewrite <- (length_map (fun v => raw_text (metadata v))), Hr.
    etransitivity; [apply List.filter_length_le|].
    rewrite List.length_firstn. lia.
  - intros Ha. now apply capture_loop_refused.
Qed.

Lemma ok_json (b : Body) : ok (json b) = true.
Proof. reflexivity. Qed.

Lemma or_num_nullish (o : option Q) (d d' e : Q) :
  ~ (d == 0)%Q ->
  JS.or_num (Some (JS.nullish (Some (JS.nullish o d)) d')) e
  = match o with
    | None => d
    | Some q => if Qeq_bool q 0 then e else q
    end.
Proof.
  intros Hd. destruct o as [q|]; cbn; [reflexivity|].
  destruct (Qeq_bool d 0) eqn:E; [|reflexivity].
  apply Qeq_bool_iff in E. contradiction.
Qed.

Lemma query_filter_agent_only (q agentId : string) (k s : option Q) :
  query_filter
    {| QueryRequest.query := q;
       QueryRequest.agent := Some agentId;
       QueryRequest.type := None;
       QueryRequest.topK := k;
       QueryRequest.minScore := s |}
  = HookObs.recall_filter agentId.
Proof.
  unfold query_filter, HookObs.recall_filter. cbn.
  now destruct (JS.truthy agentId).
Qed.

(** The run of a recall on a prompt of five characters or more. *)
Lemma before_agent_start_run (cfg : PluginConfig) (agentId p : string)
    (w : World) :
  (5 <= JS.len p)%nat ->
  before_agent_start env cfg agentId (Some p) w
  = (match HookObs.recalled env cfg agentId p w with
     | [] => None
     | kept =>
         option_map (fun lines => memories_block (join LF lines))
           (memory_lines (map to_query_match kept))
     end,
     {| store := store w;
        trace := trace w ++
                 [AiRun p;
                  VectorizeQuery (EMBEDDING_MODEL env p)
                    (HookObs.recall_topK cfg) (HookObs.recall_filter agentId)];
        ticks := ticks w |}).
Proof.
  intros Hp.
  assert (Ht : JS.truthy p = true).
  { destruct p; [cbn in Hp; lia | reflexivity]. }
  unfold before_agent_start. rewrite Ht.
  destruct (Nat.ltb_spec (JS.len p) 5) as [Hlt|_]; [lia|]. cbn [negb orb].
  unfold bind at 1. unfold client_query, send. unfold bind at 1. cbn [fetch].
  rewrite handle_query_run by exact Ht.
  cbn zeta. unfold raw_matches. rewrite query_filter_agent_only.
  unfold query_topK, query_minScore.
  cbn [QueryRequest.query QueryRequest.topK QueryRequest.minScore].
  rewrite !or_num_nullish by discriminate.
  fold (HookObs.recall_topK cfg) (HookObs.recall_minScore cfg).
  unfold ret. rewrite ok_json. cbn [json body].
  fold (HookObs.recalled env cfg agentId p w).
  destruct (HookObs.recalled env cfg agentId p w) as [|m kept]; [reflexivity|].
  cbn [length Nat.eqb].
  now destruct (memory_lines (map to_query_match (m :: kept))).
Qed.

End HookFacts.

Section RecallHook.

Import Worker Hooks.

Variable env : Env.

Lemma before_agent_start_quiet (cfg : PluginConfig) (agentId : string)
    (prompt : option string) (w : World) :
  (forall p, prompt = Some p -> (JS.len p < 5)%nat) ->
  before_agent_start env cfg agentId prompt w = (None, w).
Proof.
  intros H. destruct prompt as [p|]; [|reflexivity].
  specialize (H p eq_refl). unfold before_agent_start.
  destruct (Nat.ltb_spec (JS.len p) 5) as [_|Hge]; [|lia].
  now rewrite orb_true_r.
Qed.


(** X23.  The hook [before_agent_start] reads only: the index, the
    upserts and the clock are as before whatever the prompt, and without a
    prompt of at least five characters no binding is called at all. *)
Theorem before_agent_start_reads_only (cfg : PluginConfig) (agentId : string)
    (prompt : option string) (w : World) :
  store (snd (before_agent_start env cfg agentId prompt w)) = store w
  /\ ticks (snd (before_agent_start env cfg agentId prompt w)) = ticks w
  /\ upserts (trace (snd (before_agent_start env cfg agentId prompt w)))
     = upserts (trace w)
  /\ ((forall p, prompt = Some p -> (JS.len p < 5)%nat) ->
      before_agent_start env cfg agentId prompt w = (None, w)).
Proof.
  split; [|split; [|split]]; try apply before_agent_start_quiet.
  all: destruct prompt as [p|]; [|reflexivity].
  all: destruct (Nat.lt_ge_cases (JS.len p) 5) as [Hlt|Hge];
    [rewrite before_agent_start_quiet by (intros q [= <-]; exact Hlt);
     reflexivity
    |rewrite (before_agent_start_run env cfg agentId p w Hge)].
  - reflexivity.
  - reflexivity.
  - cbn [snd trace]. rewrite upserts_app. cbn. now rewrite app_nil_r.
Qed.

(** X24.  What a recall injects is never captured again: a text that
    holds the marker [<relevant-memories>] is not worth capturing, and every
    block that [before_agent_start] returns holds it. *)
Theorem injected_memories_are_not_captured :
  (forall a b : string,
     Capture.shouldCapture (a +:+ Capture.memories_marker +:+ b) = false)
  /\ (forall (cfg : PluginConfig) (agentId : string) (prompt : option string)
        (w : World) (ctx : string),
        fst (before_agent_start env cfg agentId prompt w) = Some ctx ->
        Capture.shouldCapture ctx = false).
Proof.
  split.
  - intros a b. apply shouldCapture_marker, includes_middle.
  - intros cfg agentId prompt w ctx H.
    destruct prompt as [p|]; [|discriminate H].
    destruct (Nat.lt_ge_cases (JS.len p) 5) as [Hlt|Hge].
    + rewrite before_agent_start_quiet in H
        by (intros q [= <-]; exact Hlt). discriminate H.
    + rewrite (before_agent_start_run env cfg agentId p w Hge) in H.
      cbn [fst] in H.
      destruct (HookObs.recalled env cfg agentId p w); [discriminate H|].
      destruct (memory_lines _) as [lines|]; [|discriminate H].
      cbn in H. injection H as <-.
      apply shouldCapture_marker. unfold memories_block.
      apply (includes_middle "" Capture.memories_marker).
Qed.

End RecallHook.

(** * Instances *)

Section WorkerInstances.

Import Worker Examples Cases.

(** A decision, captured in an empty index. *)
Lemma capture_writes_one_vector_witness :
  capture_type (a_capture a_decision None) <> "context"
  /\ exists v,
       upserts (trace (snd (handle_capture quiet_env (a_capture a_decision None)
                              empty_world))) = [[v]]
       /\ type (metadata v) = "decision"
       /\ source_file (metadata v) = "auto-capture".
Proof.
  assert (Ht : capture_type (a_capture a_decision None) <> "context")
    by (vm_compute; discriminate).
  split; [exact Ht|].
  destruct (capture_writes_one_vector quiet_env (a_capture a_decision None)
              empty_world eq_refl eq_refl Ht)
    as (v & Hu & _ & _ & _ & _ & Hty & Hsrc & _).
  exists v. split; [exact Hu|]. split; [|exact Hsrc].
  rewrite Hty. reflexivity.
Defined.

(** The same decision under the classification [context]. *)
Lemma capture_context_is_not_stored_witness :
  CaptureRequest.classification (a_capture a_decision (Some "context"))
  = Some "context"
  /\ handle_capture quiet_env (a_capture a_decision (Some "context")) empty_world
     = ({| status := 200; body := NotCaptured "Not a capture-worthy turn" |},
        empty_world).
Proof.
  split; [reflexivity|].
  apply capture_context_is_not_stored; [reflexivity | reflexivity |].
  left. reflexivity.
Defined.


(** [MEMORY.md] of the agent [dev]. *)
Lemma index_file_upserts_in_batches_witness :
  R2 env_with_file R2_DEV "MEMORY.md" = Some (paragraphs 3)
  /\ exists batches,
       upserts (trace (snd (handle_index_file env_with_file
                              (a_file "dev" "MEMORY.md") empty_world)))
       = batches
       /\ Forall (fun b => (0 < length b <= 100)%nat) batches.
Proof.
  split; [reflexivity|].
  destruct (index_file_upserts_in_batches env_with_file
              (a_file "dev" "MEMORY.md") R2_DEV (paragraphs 3) empty_world
              eq_refl eq_refl eq_refl)
    as (batches & _ & Ht & Hall & _).
  exists batches. split; [|exact Hall].
  rewrite Ht, !upserts_app, upserts_ai_run, upserts_batches. reflexivity.
Defined.

(** The agent [sage] has no bucket. *)
Lemma index_file_unknown_agent_witness :
  IndexFileRequest.agent (a_file "sage" "MEMORY.md") <> "dev"
  /\ handle_index_file quiet_env (a_file "sage" "MEMORY.md") empty_world
     = ({| status := 400; body := ErrorBody "Unknown agent: sage" |},
        empty_world).
Proof.
  split; [discriminate|].
  apply (index_file_unknown_agent quiet_env (a_file "sage" "MEMORY.md")
           empty_world); try reflexivity; discriminate.
Defined.

(** A file that the bucket of [dev] does not hold. *)
Lemma index_file_missing_file_witness :
  R2 quiet_env R2_DEV "memory/2026-02-18.md" = None
  /\ status (fst (handle_index_file quiet_env
                    (a_file "dev" "memory/2026-02-18.md") empty_world)) = 404.
Proof.
  split; [reflexivity|].
  exact (proj1 (index_file_missing_file quiet_env
                  (a_file "dev" "memory/2026-02-18.md") R2_DEV empty_world
                  eq_refl eq_refl eq_refl)).
Defined.

(** A capture changes nothing but the record it writes. *)
Lemma fetch_changes_only_witness :
  exists vs,
    written (trace (snd (fetch quiet_env (PostCapture (a_capture a_decision None))
                           empty_world))) = vs
    /\ forall i, ~ In i (map id vs) ->
         store (snd (fetch quiet_env (PostCapture (a_capture a_decision None))
                       empty_world)) !! i = None.
Proof.
  destruct (fetch_changes_only_what_it_upserts quiet_env
              (PostCapture (a_capture a_decision None)) empty_world)
    as (vs & Hw & _ & Ho & _).
  exists vs. split; [exact Hw|].
  intros i Hi. rewrite (Ho i Hi). apply lookup_empty.
Defined.

(** A query without its text. *)
Lemma fetch_refusal_witness :
  Obs.missing_field (PostQuery empty_query) = true
  /\ status (fst (fetch quiet_env (PostQuery empty_query) empty_world)) = 400
  /\ snd (fetch quiet_env (PostQuery empty_query) empty_world) = empty_world.
Proof.
  destruct (fetch_refusal_has_no_effect quiet_env (PostQuery empty_query)
              empty_world) as [H1 H2].
  split; [reflexivity|]. split; [exact (H1 eq_refl) | exact (H2 (H1 eq_refl))].
Defined.

End WorkerInstances.

Section PluginInstances.

Import Worker Examples Cases Hooks.

(** A reminder matches a trigger and is not stored; a preference is. *)
Lemma plugin_capture_witness :
  Capture.shouldCapture a_reminder = true
  /\ client_capture quiet_env "flo" a_reminder
       (Some (Plugin.type_name (Plugin.detectCategory a_reminder))) empty_world
     = (Some {| status := 200; body := NotCaptured "Not a capture-worthy turn" |},
        empty_world)
  /\ exists v,
       upserts (trace (snd (client_capture quiet_env "flo" a_preference
                              (Some (Plugin.type_name
                                       (Plugin.detectCategory a_preference)))
                              empty_world))) = [[v]]
       /\ raw_text (metadata v) = a_preference.
Proof.
  assert (H1 : Capture.shouldCapture a_reminder = true)
    by (vm_compute; reflexivity).
  assert (H2 : Capture.shouldCapture a_preference = true)
    by (vm_compute; reflexivity).
  split; [exact H1|]. split.
  - apply (plugin_capture_stores_the_detected_category quiet_env "flo"
             a_reminder empty_world eq_refl H1).
    vm_compute. reflexivity.
  - destruct (proj2 (plugin_capture_stores_the_detected_category quiet_env "flo"
                       a_preference empty_world eq_refl H2))
      as (v & _ & Hu & _ & Hr & _).
    + vm_compute. discriminate.
    + exists v. split; [exact Hu | exact Hr].
Defined.

(** Of a reminder, a decision and a message of the system, the decision
    is stored. *)
Lemma agent_end_witness :
  JS.truthy "flo" = true
  /\ exists vs,
       upserts (trace (snd (agent_end quiet_env "flo" an_event empty_world)))
       = map (fun v => [v]) vs
       /\ map (fun v => raw_text (metadata v)) vs = [a_decision].
Proof.
  split; [reflexivity|].
  destruct (proj1 (agent_end_stores_categorised_texts quiet_env "flo" an_event
                     empty_world) eq_refl)
    as (vs & Hu & Hr & _).
  exists vs. split; [exact Hu|]. rewrite Hr. vm_compute. reflexivity.
Defined.


(** A prompt of two characters. *)
Lemma before_agent_start_reads_only_witness :
  before_agent_start env_with_memories (cfg_of None None) "flo" (Some "hi")
    empty_world = (None, empty_world).
Proof.
  apply (before_agent_start_reads_only env_with_memories (cfg_of None None)
           "flo" (Some "hi") empty_world).
  intros p [= <-]. vm_compute. lia.
Defined.

(** The block injected for two memories. *)
Lemma injected_memories_witness :
  exists ctx,
    fst (before_agent_start env_with_memories (cfg_of None None) "flo"
           (Some "what did we decide") empty_world) = Some ctx
    /\ Capture.shouldCapture ctx = false.
Proof.
  eexists. split; [vm_compute; reflexivity|].
  apply (proj2 (injected_memories_are_not_captured env_with_memories)
           (cfg_of None None) "flo" (Some "what did we decide") empty_world).
  vm_compute. reflexivity.
Defined.

End PluginInstances.
